(** * FarmersMark: the chat relay (server route /api/chat and the React chat surface)

  A shallow embedding of the Express server (its routes and the two Vertex
  calls) and of [src/App.tsx] (the submit handler of the chat surface),
  with the properties of the orchestration contract proved on it.

  JavaScript strings are sequences of UTF-16 code units; the outside world
  (environment variables, the credential client, the two HTTP endpoints) is
  a record of oracles, and every outbound call is logged in a trace. *)

From Stdlib Require Import NArith ZArith QArith String Ascii.
From stdpp Require Import base list.

(** ** The JavaScript primitives the program uses *)

Module JS.
Local Open Scope N_scope.

Definition codeunit := N.
Definition jsstring := list codeunit.

(** A string literal of the source (all literals of the program are ASCII). *)
Definition lit (s : string) : jsstring :=
  (fun a => N_of_ascii a) <$> list_ascii_of_string s.

(** [WhiteSpace] and [LineTerminator] of ECMA-262, as [String.prototype.trim]
    strips them. *)
Definition isWhiteSpace (c : codeunit) : bool :=
  (c =? 0x09) || (c =? 0x0A) || (c =? 0x0B) || (c =? 0x0C) || (c =? 0x0D)
  || (c =? 0x20) || (c =? 0xA0) || (c =? 0x1680)
  || ((0x2000 <=? c) && (c <=? 0x200A))
  || (c =? 0x2028) || (c =? 0x2029) || (c =? 0x202F) || (c =? 0x205F)
  || (c =? 0x3000) || (c =? 0xFEFF).

Fixpoint trimStart (s : jsstring) : jsstring :=
  match s with
  | [] => []
  | c :: s' => if isWhiteSpace c then trimStart s' else s
  end.

Definition trimEnd (s : jsstring) : jsstring :=
  reverse (trimStart (reverse s)).

Definition trim (s : jsstring) : jsstring := trimEnd (trimStart s).

(** [x.slice(start, end)] on a string or an array: negative indices count
    from the end, both ends are clamped to the length. *)
Definition relativeIndex (i : Z) (len : nat) : nat :=
  if (i <? 0)%Z then Z.to_nat (Z.max (Z.of_nat len + i) 0)
  else Nat.min (Z.to_nat i) len.

Definition slice {A} (start : Z) (stop : option Z) (l : list A) : list A :=
  let from := relativeIndex start (length l) in
  let to := match stop with
            | Some e => relativeIndex e (length l)
            | None => length l
            end in
  take (to - from)%nat (drop from l).

(** [xs.join(sep)] on an array of strings. *)
Fixpoint join (sep : jsstring) (xs : list jsstring) : jsstring :=
  match xs with
  | [] => []
  | [x] => x
  | x :: rest => x ++ sep ++ join sep rest
  end.

(** Number-to-string of a non-negative integer, as a template literal
    interpolates an array index or an HTTP status. *)
Fixpoint uintCodes (u : Decimal.uint) : jsstring :=
  match u with
  | Decimal.Nil => []
  | Decimal.D0 u => 48 :: uintCodes u
  | Decimal.D1 u => 49 :: uintCodes u
  | Decimal.D2 u => 50 :: uintCodes u
  | Decimal.D3 u => 51 :: uintCodes u
  | Decimal.D4 u => 52 :: uintCodes u
  | Decimal.D5 u => 53 :: uintCodes u
  | Decimal.D6 u => 54 :: uintCodes u
  | Decimal.D7 u => 55 :: uintCodes u
  | Decimal.D8 u => 56 :: uintCodes u
  | Decimal.D9 u => 57 :: uintCodes u
  end.

Definition decimal (n : N) : jsstring := uintCodes (N.to_uint n).

(** [new Set(iterable)] keeps insertion order and ignores a value that is
    already present; [Array.from] lists the members in that order. *)
Definition Set_add (s : list jsstring) (x : jsstring) : list jsstring :=
  if bool_decide (x ∈ s) then s else s ++ [x].

Definition Set_new (xs : list jsstring) : list jsstring :=
  foldl Set_add [] xs.

Definition Array_from (s : list jsstring) : list jsstring := s.

(** Position [a] is where [u] first occurs in [l] (what [l.indexOf(u)]
    returns); used to state the order of the members of a [Set]. *)
Definition firstOccurrence {A} (l : list A) (a : nat) (u : A) : Prop :=
  l !! a = Some u ∧ ∀ k, (k < a)%nat → l !! k ≠ Some u.

(** *** Numbers

    A JavaScript number is NaN, an infinity or a finite binary64 value, kept
    here as the rational it denotes, in lowest terms (the sign of zero is
    not kept: [Math.max(1, x)] is [1] for both zeros). *)
Inductive jsnum :=
| NaN
| Inf (negative : bool)
| Fin (q : Q).

Definition ofZ (z : Z) : jsnum := Fin (z # 1).

(** Round a positive rational [p/q] to the nearest binary64 value, ties to
    even (53-bit significand, exponent of the last place between -1074 and
    971, overflow to infinity). *)
Definition roundHalfEven (num den : Z) : Z :=
  let m := (num / den)%Z in
  let r := (num mod den)%Z in
  match (2 * r ?= den)%Z with
  | Lt => m
  | Gt => (m + 1)%Z
  | Eq => if Z.even m then m else (m + 1)%Z
  end.

Definition scaled (p q e : Z) : Z * Z :=
  if (0 <=? e)%Z then (p, q * 2 ^ e)%Z else (p * 2 ^ (- e), q)%Z.

Definition roundBinary64 (neg : bool) (p q : Z) : jsnum :=
  if (p =? 0)%Z then Fin 0 else
  let e1 := (Z.log2 p - Z.log2 q - 52)%Z in
  let '(n1, d1) := scaled p q e1 in
  let e2 := if (n1 <? d1 * 2 ^ 52)%Z then (e1 - 1)%Z else e1 in
  let e := Z.max e2 (-1074) in
  let '(n, d) := scaled p q e in
  let m := roundHalfEven n d in
  if (0 <=? e)%Z && (2 ^ 1024 <=? m * 2 ^ e)%Z then Inf neg
  else
    let s := if neg then (- m)%Z else m in
    Fin (Qred (if (0 <=? e)%Z then (s * 2 ^ e) # 1
               else s # Z.to_pos (2 ^ (- e)))).

(** [StringToNumber]: the [StringNumericLiteral] grammar. *)
Definition digitOf (radix : N) (c : codeunit) : option N :=
  let v :=
    if (48 <=? c) && (c <=? 57) then Some (c - 48)
    else if (97 <=? c) && (c <=? 102) then Some (c - 87)
    else if (65 <=? c) && (c <=? 70) then Some (c - 55)
    else None in
  match v with
  | Some d => if d <? radix then Some d else None
  | None => None
  end.

Fixpoint spanDigits (radix : N) (s : jsstring) : list N * jsstring :=
  match s with
  | [] => ([], [])
  | c :: s' =>
      match digitOf radix c with
      | Some d => let '(ds, rest) := spanDigits radix s' in (d :: ds, rest)
      | None => ([], s)
      end
  end.

Definition digitsValue (radix : N) (ds : list N) : Z :=
  foldl (fun acc d => (Z.of_N radix * acc + Z.of_N d)%Z) 0%Z ds.

(** [ExponentPart]: absent, or [e]/[E], an optional sign and digits. *)
Definition exponentPart (s : jsstring) : option Z :=
  match s with
  | [] => Some 0%Z
  | c :: s' =>
      if (c =? 101) || (c =? 69) then
        let '(neg, s'') :=
          match s' with
          | 43 :: t => (false, t)
          | 45 :: t => (true, t)
          | _ => (false, s')
          end in
        match spanDigits 10 s'' with
        | (d :: ds, []) =>
            let v := digitsValue 10 (d :: ds) in
            Some (if neg then (- v)%Z else v)
        | _ => None
        end
      else None
  end.

Definition decimalValue (neg : bool) (ds : list N) (e10 : Z) : jsnum :=
  let n := digitsValue 10 ds in
  if (0 <=? e10)%Z then roundBinary64 neg (n * 10 ^ e10)%Z 1%Z
  else roundBinary64 neg n (10 ^ (- e10))%Z.

Definition strUnsignedDecimalLiteral (neg : bool) (s : jsstring) : jsnum :=
  if bool_decide (s = lit "Infinity") then Inf neg else
  let '(ip, r1) := spanDigits 10 s in
  match r1 with
  | 46 :: r2 =>
      let '(fp, r3) := spanDigits 10 r2 in
      match ip ++ fp, exponentPart r3 with
      | _ :: _, Some e => decimalValue neg (ip ++ fp) (e - Z.of_nat (length fp))
      | _, _ => NaN
      end
  | _ =>
      match ip, exponentPart r1 with
      | _ :: _, Some e => decimalValue neg ip e
      | _, _ => NaN
      end
  end.

Definition nonDecimalIntegerLiteral (radix : N) (s : jsstring) : jsnum :=
  match spanDigits radix s with
  | (d :: ds, []) => roundBinary64 false (digitsValue radix (d :: ds)) 1%Z
  | _ => NaN
  end.

Definition StringToNumber (s : jsstring) : jsnum :=
  match trim s with
  | [] => Fin 0
  | 43 :: t => strUnsignedDecimalLiteral false t
  | 45 :: t => strUnsignedDecimalLiteral true t
  | 48 :: c :: t =>
      if (c =? 120) || (c =? 88) then nonDecimalIntegerLiteral 16 t
      else if (c =? 111) || (c =? 79) then nonDecimalIntegerLiteral 8 t
      else if (c =? 98) || (c =? 66) then nonDecimalIntegerLiteral 2 t
      else strUnsignedDecimalLiteral false (48 :: c :: t)
  | t => strUnsignedDecimalLiteral false t
  end.

(** [Math.max(a, b)]: NaN if either argument is NaN, else the larger. *)
Definition Math_max (a b : jsnum) : jsnum :=
  match a, b with
  | NaN, _ | _, NaN => NaN
  | Inf false, _ | _, Inf false => Inf false
  | Inf true, y => y
  | x, Inf true => x
  | Fin x, Fin y => if Qle_bool x y then Fin y else Fin x
  end.

(** [a <= b] on numbers (false as soon as one side is NaN). *)
Definition leb (a b : jsnum) : bool :=
  match a, b with
  | NaN, _ | _, NaN => false
  | Inf true, _ => true
  | _, Inf false => true
  | Inf false, _ => false
  | _, Inf true => false
  | Fin x, Fin y => Qle_bool x y
  end.

(** [Number.isInteger]. *)
Definition isInteger (a : jsnum) : bool :=
  match a with
  | Fin q => bool_decide (Qden (Qred q) = 1%positive)
  | _ => false
  end.

(** What a [throw] carries to a [catch]: an [Error] with its message, or any
    other value. A computation returns or throws. *)
Inductive thrown :=
| ErrorObj (message : jsstring)
| NotAnError.

Inductive outcome (A : Type) :=
| Return (a : A)
| Throw (e : thrown).
Arguments Return {A} a.
Arguments Throw {A} e.

End JS.

(** ** The server *)

Module Server.
Import JS.
Local Open Scope N_scope.

Record Turn := { role : jsstring; content : jsstring }.
Record RetrievedContext := { text : jsstring; sourceUri : jsstring }.

(** *** The outside world *)

(** [process.env]: each variable is a string or undefined. *)
Record ProcessEnv := {
  env_GOOGLE_CLOUD_PROJECT : option jsstring;
  env_GCLOUD_PROJECT : option jsstring;
  env_GOOGLE_CLOUD_LOCATION : option jsstring;
  env_VERTEX_MODEL : option jsstring;
  env_VERTEX_RAG_CORPUS : option jsstring;
  env_VERTEX_RAG_TOP_K : option jsstring
}.

(** The credential client: it throws, or yields a token that may be missing. *)
Inductive AuthOutcome :=
| AuthThrows (e : thrown)
| AuthToken (token : option jsstring).

(** A [fetch] response: [ok] is derived from the status, [text()] yields the
    body, [json()] yields the parsed payload or throws. *)
Record Response (P : Type) := {
  status : N;
  bodyText : jsstring;
  bodyJson : outcome P
}.
Arguments status {P} _.
Arguments bodyText {P} _.
Arguments bodyJson {P} _.

Definition ok {P} (r : Response P) : bool :=
  (200 <=? status r) && (status r <=? 299).

Inductive FetchOutcome (P : Type) :=
| FetchRejects (e : thrown)
| FetchResponse (r : Response P).
Arguments FetchRejects {P} e.
Arguments FetchResponse {P} r.

(** The payload of [retrieveContexts]. *)
Record ContextItem := {
  item_text : option jsstring;
  item_sourceUri : option jsstring
}.
Record ContextsInner := { inner_contexts : option (list ContextItem) }.
Record RetrievePayload := { payload_contexts : option ContextsInner }.

(** The payload of [generateContent]. *)
Record Part := { part_text : option jsstring }.
Record Content := { parts : option (list Part) }.
Record Candidate := { cand_content : option Content }.
Record GeneratePayload := { candidates : option (list Candidate) }.

(** The two outbound requests, as [JSON.stringify] receives them. *)
Record RetrieveRequest := {
  rq_endpoint : jsstring;
  rq_authorization : jsstring;
  rq_query_text : jsstring;
  rq_topK : jsnum;
  rq_ragCorpus : jsstring
}.

Record VertexContent := { vc_role : jsstring; vc_parts : list jsstring }.

Record GenerateRequest := {
  gq_endpoint : jsstring;
  gq_authorization : jsstring;
  gq_systemInstruction : jsstring;
  gq_contents : list VertexContent;
  gq_temperature : Q
}.

Record World := {
  processEnv : ProcessEnv;
  (** the outcome of the n-th call of [getAccessToken] of a request *)
  credentials : nat -> AuthOutcome;
  retrieveContexts : RetrieveRequest -> FetchOutcome RetrievePayload;
  generateContent : GenerateRequest -> FetchOutcome GeneratePayload
}.

(** *** Effects: a trace of outbound calls and exceptions *)

Inductive event :=
| CallAccessToken
| CallRetrieve (r : RetrieveRequest)
| CallGenerate (r : GenerateRequest).

Definition M (A : Type) := list event -> outcome A * list event.

Definition ret {A} (a : A) : M A := fun tr => (Return a, tr).
Definition throw {A} (e : thrown) : M A := fun tr => (Throw e, tr).
Definition bind {A B} (m : M A) (k : A -> M B) : M B :=
  fun tr =>
    match m tr with
    | (Return a, tr') => k a tr'
    | (Throw e, tr') => (Throw e, tr')
    end.
Definition try_catch {A} (m : M A) (h : thrown -> M A) : M A :=
  fun tr =>
    match m tr with
    | (Return a, tr') => (Return a, tr')
    | (Throw e, tr') => h e tr'
    end.
Definition emit (e : event) : M unit := fun tr => (Return tt, tr ++ [e]).
Definition trace : M (list event) := fun tr => (Return tr, tr).
Definition lift {A} (o : outcome A) : M A := fun tr => (o, tr).

Notation "'let*' x := m 'in' k" := (bind m (fun x => k))
  (at level 10, x name, m at level 100, k at level 200).

Definition isTokenCall (e : event) : bool :=
  match e with CallAccessToken => true | _ => false end.

(** *** Configuration *)

(** [a || b] on strings-or-undefined: the first operand if it is truthy. *)
Definition or_else (a : option jsstring) (b : jsstring) : jsstring :=
  match a with
  | Some (c :: s) => c :: s
  | _ => b
  end.

Definition GOOGLE_CLOUD_PROJECT (env : ProcessEnv) : jsstring :=
  or_else (trim <$> env_GOOGLE_CLOUD_PROJECT env)
    (or_else (trim <$> env_GCLOUD_PROJECT env) []).

Definition GOOGLE_CLOUD_LOCATION (env : ProcessEnv) : jsstring :=
  trim (default (lit "us-west1") (env_GOOGLE_CLOUD_LOCATION env)).

Definition VERTEX_MODEL (env : ProcessEnv) : jsstring :=
  or_else (trim <$> env_VERTEX_MODEL env) (lit "gemini-2.5-flash").

Definition VERTEX_RAG_CORPUS (env : ProcessEnv) : jsstring :=
  or_else (trim <$> env_VERTEX_RAG_CORPUS env) [].

(** [Number(process.env.VERTEX_RAG_TOP_K ?? 4)] *)
Definition Number_of_env (v : option jsstring) : jsnum :=
  match v with
  | Some s => StringToNumber s
  | None => ofZ 4
  end.

Definition VERTEX_RAG_TOP_K (env : ProcessEnv) : jsnum :=
  Math_max (ofZ 1) (Number_of_env (env_VERTEX_RAG_TOP_K env)).

(** *** The functions of the file *)

Definition getAccessToken (w : World) : M jsstring :=
  let* tr := trace in
  let* _ := emit CallAccessToken in
  match credentials w (length (filter (fun e => isTokenCall e = true) tr)) with
  | AuthThrows e => throw e
  | AuthToken (Some (c :: s)) => ret (c :: s)
  | AuthToken _ =>
      throw (ErrorObj (lit
        "Could not obtain Google access token. Run 'gcloud auth application-default login'."))
  end.

Definition requireVertexConfig (env : ProcessEnv) : M unit :=
  match GOOGLE_CLOUD_PROJECT env with
  | [] => throw (ErrorObj (lit "GOOGLE_CLOUD_PROJECT is required."))
  | _ =>
  match GOOGLE_CLOUD_LOCATION env with
  | [] => throw (ErrorObj (lit "GOOGLE_CLOUD_LOCATION is required."))
  | _ =>
  match VERTEX_MODEL env with
  | [] => throw (ErrorObj (lit "VERTEX_MODEL is required."))
  | _ =>
  match VERTEX_RAG_CORPUS env with
  | [] => throw (ErrorObj (lit "VERTEX_RAG_CORPUS is required."))
  | _ => ret tt
  end end end end.

Definition apiRoot (env : ProcessEnv) : jsstring :=
  lit "https://" ++ GOOGLE_CLOUD_LOCATION env ++ lit "-aiplatform.googleapis.com/v1"
  ++ lit "/projects/" ++ GOOGLE_CLOUD_PROJECT env
  ++ lit "/locations/" ++ GOOGLE_CLOUD_LOCATION env.

Definition bearer (accessToken : jsstring) : jsstring :=
  lit "Bearer " ++ accessToken.

(** The [map] callback and the [filter] predicate of [retrieveFromVertexCorpus]. *)
Definition toContext (item : ContextItem) : RetrievedContext :=
  {| text := default [] (trim <$> item_text item);
     sourceUri := default (lit "unknown-source") (trim <$> item_sourceUri item) |}.

Definition hasText (c : RetrievedContext) : bool :=
  (0 <? length (text c))%nat.

Definition payloadItems (payload : RetrievePayload) : list ContextItem :=
  default [] (payload_contexts payload ≫= inner_contexts).

Definition contextsOfPayload (payload : RetrievePayload) : list RetrievedContext :=
  filter (fun c => hasText c = true) (toContext <$> payloadItems payload).

Definition retrieveRequest (env : ProcessEnv) (accessToken query : jsstring)
    (topK : jsnum) : RetrieveRequest :=
  {| rq_endpoint := apiRoot env ++ lit ":retrieveContexts";
     rq_authorization := bearer accessToken;
     rq_query_text := query;
     rq_topK := topK;
     rq_ragCorpus := VERTEX_RAG_CORPUS env |}.

Definition retrieveFromVertexCorpus (w : World) (query : jsstring) (topK : jsnum)
    : M (list RetrievedContext) :=
  let env := processEnv w in
  let* _ := requireVertexConfig env in
  let* accessToken := getAccessToken w in
  let request := retrieveRequest env accessToken query topK in
  let* _ := emit (CallRetrieve request) in
  match retrieveContexts w request with
  | FetchRejects e => throw e
  | FetchResponse response =>
      if negb (ok response) then
        let details := bodyText response in
        throw (ErrorObj (lit "Vertex retrieveContexts failed: "
                         ++ decimal (status response) ++ lit " " ++ details))
      else
        let* payload := lift (bodyJson response) in
        ret (contextsOfPayload payload)
  end.

Definition NO_CONTEXT : jsstring :=
  lit "I could not retrieve relevant context from the configured Vertex corpus. Try rephrasing your question.".

Definition NO_MODEL_NOTICE : jsstring :=
  lit "No model response was generated, so this answer is extractive from corpus matches:".

Definition blankLine : jsstring := [10; 10].

Definition previewLine (idx : nat) (chunk : RetrievedContext) : jsstring :=
  lit "(" ++ decimal (N.of_nat (idx + 1)) ++ lit ") "
  ++ trim (slice 0 (Some 280%Z) (text chunk)) ++ lit "...".

Definition fallbackAnswer (question : jsstring) (contexts : list RetrievedContext)
    : jsstring :=
  if (length contexts =? 0)%nat then NO_CONTEXT
  else
    let preview := join blankLine (imap previewLine contexts) in
    join blankLine [lit "Question: " ++ question; NO_MODEL_NOTICE; preview].

Definition vertexTurn (turn : Turn) : VertexContent :=
  {| vc_role := if bool_decide (role turn = lit "assistant")
                then lit "model" else lit "user";
     vc_parts := [content turn] |}.

Definition SYSTEM_INSTRUCTION : jsstring :=
  lit "You are a RAG assistant. Answer using the provided context. If context is insufficient, say what is missing.".

Definition generateRequest (env : ProcessEnv) (accessToken message : jsstring)
    (history : list Turn) (promptContext : jsstring) : GenerateRequest :=
  {| gq_endpoint := apiRoot env ++ lit "/publishers/google/models/"
                    ++ VERTEX_MODEL env ++ lit ":generateContent";
     gq_authorization := bearer accessToken;
     gq_systemInstruction :=
       SYSTEM_INSTRUCTION ++ blankLine
       ++ lit "Context from the Vertex RAG corpus:" ++ [10] ++ promptContext;
     gq_contents := (vertexTurn <$> history)
                    ++ [ {| vc_role := lit "user"; vc_parts := [message] |} ];
     gq_temperature := 2 # 10 |}.

(** [payload.candidates?.[0]?.content?.parts?.map(p => p.text ?? "").join("").trim()] *)
Definition candidateText (payload : GeneratePayload) : option jsstring :=
  cs ← candidates payload;
  c ← head cs;
  ct ← cand_content c;
  ps ← parts ct;
  Some (trim (join [] ((fun p => default [] (part_text p)) <$> ps))).

Definition NO_ANSWER : jsstring := lit "I do not have an answer.".

Definition generateWithVertex (w : World) (message : jsstring)
    (history : list Turn) (promptContext : jsstring) : M jsstring :=
  let env := processEnv w in
  let* _ := requireVertexConfig env in
  let* accessToken := getAccessToken w in
  let request := generateRequest env accessToken message history promptContext in
  let* _ := emit (CallGenerate request) in
  match generateContent w request with
  | FetchRejects e => throw e
  | FetchResponse response =>
      if negb (ok response) then
        let details := bodyText response in
        throw (ErrorObj (lit "Vertex generateContent failed: "
                         ++ decimal (status response) ++ lit " " ++ details))
      else
        let* payload := lift (bodyJson response) in
        ret (or_else (candidateText payload) NO_ANSWER)
  end.

(** *** The route [POST /api/chat] *)

(** [req.body], an object as the route types it: [message] is a string or
    missing; [history] is an array of turns or anything else (missing
    included), which [Array.isArray] tells apart. *)
Inductive HistoryField :=
| NotAnArray
| AnArray (turns : list Turn).

Record ChatBody := { message : option jsstring; history : HistoryField }.

Inductive ResponseBody :=
| ChatOk (answer : jsstring) (sources : list jsstring)
| ErrorBody (error : jsstring).

Record HttpResponse := { res_status : N; res_body : ResponseBody }.

(** [res.json(b)] answers with status 200, [res.status(n).json(b)] with [n]. *)
Definition res_json (b : ResponseBody) : HttpResponse :=
  {| res_status := 200; res_body := b |}.
Definition res_status_json (n : N) (b : ResponseBody) : HttpResponse :=
  {| res_status := n; res_body := b |}.

Definition historyOf (body : ChatBody) : list Turn :=
  match history body with
  | AnArray turns => slice (-8) None turns
  | NotAnArray => []
  end.

Definition chunkLine (i : nat) (x : RetrievedContext) : jsstring :=
  lit "[Chunk " ++ decimal (N.of_nat (i + 1)) ++ lit "] " ++ text x.

Definition sourcesOf (contexts : list RetrievedContext) : list jsstring :=
  Array_from (Set_new (sourceUri <$> contexts)).

(** [error instanceof Error ? error.message : "unknown error"] *)
Definition errorMessage (error : thrown) : jsstring :=
  match error with
  | ErrorObj m => m
  | NotAnError => lit "unknown error"
  end.

Definition chatRoute (w : World) (body : ChatBody) : M HttpResponse :=
  try_catch
    (let message := trim (default [] (message body)) in
     match message with
     | [] => ret (res_status_json 400 (ErrorBody (lit "message is required")))
     | _ =>
         let history := historyOf body in
         let* contexts := retrieveFromVertexCorpus w message
                       (VERTEX_RAG_TOP_K (processEnv w)) in
         let sources := sourcesOf contexts in
         if (length contexts =? 0)%nat then
           ret (res_json (ChatOk (fallbackAnswer message contexts) sources))
         else
           let promptContext := join blankLine (imap chunkLine contexts) in
           let* answer := generateWithVertex w message history promptContext in
           ret (res_json (ChatOk answer sources))
     end)
    (fun error =>
       let text := errorMessage error in
       ret (res_status_json 500 (ErrorBody text))).

(** One request, from an empty trace: the response sent (or an escaped
    exception) and the outbound calls made, in order. *)
Definition handleChat (w : World) (body : ChatBody)
    : outcome HttpResponse * list event :=
  chatRoute w body [].

Definition isGenerateCall (e : event) : bool :=
  match e with CallGenerate _ => true | _ => false end.

(** *** The route [GET /api/health] *)

(** [x || null] on a string. *)
Definition orNull (s : jsstring) : option jsstring :=
  match s with
  | [] => None
  | _ => Some s
  end.

Record HealthReport := {
  h_ok : bool;
  h_sourceMode : jsstring;
  h_model : jsstring;
  h_project : option jsstring;
  h_location : jsstring;
  h_corpus : option jsstring;
  h_topK : jsnum
}.

Definition healthRoute (env : ProcessEnv) : HealthReport :=
  {| h_ok := true;
     h_sourceMode := lit "vertex-rag-corpus";
     h_model := lit "vertex:" ++ VERTEX_MODEL env;
     h_project := orNull (GOOGLE_CLOUD_PROJECT env);
     h_location := GOOGLE_CLOUD_LOCATION env;
     h_corpus := orNull (VERTEX_RAG_CORPUS env);
     h_topK := VERTEX_RAG_TOP_K env |}.

End Server.

(** ** The chat surface: [src/App.tsx] *)

Module ChatSurface.
Import JS.
Local Open Scope N_scope.

Inductive Role := user | assistant.

(** [id] is the rank of the [crypto.randomUUID()] draw that produced it. *)
Record Message := {
  id : nat;
  role : Role;
  content : jsstring;
  sources : option (list jsstring)
}.

Record ChatResponse := { answer : jsstring; data_sources : list jsstring }.

Definition starter : jsstring :=
  lit "Ask anything about the attached Vertex AI RAG notes.".

Record AbortController := { aborted : bool }.

(** The body of the [fetch] of [onSubmit]. *)
Record ChatRequest := {
  rq_message : jsstring;
  rq_history : list (Role * jsstring)
}.

(** The component state: the three [useState] cells, the [useRef] cell, and
    what the runtime holds: the number of UUIDs drawn and the suspended
    [onSubmit] (the request it awaits), if any. *)
Record State := {
  messages : list Message;
  input : jsstring;
  loading : bool;
  abortRef : option AbortController;
  uuids : nat;
  pending : option ChatRequest
}.

Definition initial : State :=
  {| messages := [ {| id := 0; role := assistant; content := starter;
                      sources := None |} ];
     input := [];
     loading := false;
     abortRef := None;
     uuids := 1;
     pending := None |}.

Definition isPlaceholder (m : Message) : bool :=
  match role m with
  | assistant => bool_decide (content m = starter)
  | user => false
  end.

Definition transcript (st : State) : list Message :=
  filter (fun m => isPlaceholder m = false) (messages st).

(** How the awaited [fetch] settles: it rejects (network failure, abort), or
    it yields a response whose [json()] returns or throws. *)
Inductive Settled :=
| Rejected (e : thrown)
| Fulfilled (status : N) (json : outcome ChatResponse).

Definition appendMessage (st : State) (r : Role) (c : jsstring)
    (src : option (list jsstring)) : State :=
  {| messages := messages st ++ [ {| id := uuids st; role := r; content := c;
                                     sources := src |} ];
     input := input st;
     loading := loading st;
     abortRef := abortRef st;
     uuids := S (uuids st);
     pending := pending st |}.

(** [onSubmit] up to its first [await]: [None] when the guard returns. *)
Definition onSubmit_start (st : State) : option State :=
  let trimmed := trim (input st) in
  match trimmed with
  | [] => None
  | _ =>
      if loading st then None
      else
        let history := (fun m => (role m, content m)) <$> transcript st in
        let st1 := appendMessage st user trimmed None in
        Some {| messages := messages st1;
                input := [];
                loading := true;
                abortRef := Some {| aborted := false |};
                uuids := uuids st1;
                pending := Some {| rq_message := trimmed;
                                   rq_history := history |} |}
  end.

(** The [try] block after the [await]. *)
Definition tryBlock (st : State) (r : Settled) : outcome State :=
  match r with
  | Rejected e => Throw e
  | Fulfilled status json =>
      if negb ((200 <=? status) && (status <=? 299)) then
        Throw (ErrorObj (lit "Request failed: " ++ decimal status))
      else
        match json with
        | Throw e => Throw e
        | Return data =>
            Return (appendMessage st assistant (answer data)
                      (Some (data_sources data)))
        end
  end.

Definition catchBlock (st : State) (error : thrown) : State :=
  let text := match error with
              | ErrorObj m => m
              | NotAnError => lit "Unknown error"
              end in
  appendMessage st assistant (lit "I could not process that request. " ++ text) None.

Definition finallyBlock (st : State) : State :=
  {| messages := messages st;
     input := input st;
     loading := false;
     abortRef := None;
     uuids := uuids st;
     pending := None |}.

Definition onSubmit_resume (st : State) (r : Settled) : State :=
  finallyBlock
    match tryBlock st r with
    | Return st' => st'
    | Throw e => catchBlock st e
    end.

(** [abortRef.current?.abort()] *)
Definition onStop (st : State) : State :=
  match abortRef st with
  | Some _ =>
      {| messages := messages st;
         input := input st;
         loading := loading st;
         abortRef := Some {| aborted := true |};
         uuids := uuids st;
         pending := pending st |}
  | None => st
  end.

Definition onChange (st : State) (v : jsstring) : State :=
  {| messages := messages st;
     input := v;
     loading := loading st;
     abortRef := abortRef st;
     uuids := uuids st;
     pending := pending st |}.

(** What can happen to the mounted component. *)
Inductive action :=
| Change (v : jsstring)
| Submit
| Stop
| Settle (r : Settled).

Inductive step : State -> action -> State -> Prop :=
| step_change st v : step st (Change v) (onChange st v)
| step_submit st st' :
    onSubmit_start st = Some st' -> step st Submit st'
| step_guard st :
    onSubmit_start st = None -> step st Submit st
| step_stop st : step st Stop (onStop st)
| step_settle st rq r :
    pending st = Some rq -> step st (Settle r) (onSubmit_resume st r).

Inductive reachable : State -> Prop :=
| reach_initial : reachable initial
| reach_step st a st' : reachable st -> step st a st' -> reachable st'.

(** What the composer renders: [disabled={loading || !input.trim()}] on the
    Send button, and the Stop button only while [loading]. *)
Definition sendDisabled (st : State) : bool :=
  loading st || match trim (input st) with [] => true | _ => false end.

Definition stopVisible (st : State) : bool := loading st.


End ChatSurface.

(** ** Sample runs

  Concrete worlds on which the statements below are exercised: the
  environment of the README, a credential client that always yields a
  token, and canned responses of the two endpoints. *)

Module Scenario.
Import JS Server.
Local Open Scope N_scope.

Definition envReadme : ProcessEnv :=
  {| env_GOOGLE_CLOUD_PROJECT := Some (lit "farmersmark-agriculture");
     env_GCLOUD_PROJECT := None;
     env_GOOGLE_CLOUD_LOCATION := Some (lit "us-west1");
     env_VERTEX_MODEL := Some (lit "gemini-2.5-flash");
     env_VERTEX_RAG_CORPUS :=
       Some (lit "projects/1030666165439/locations/us-west1/ragCorpora/2305843009213693952");
     env_VERTEX_RAG_TOP_K := Some (lit "4") |}.

Definition withTopK (v : option jsstring) : ProcessEnv :=
  {| env_GOOGLE_CLOUD_PROJECT := env_GOOGLE_CLOUD_PROJECT envReadme;
     env_GCLOUD_PROJECT := env_GCLOUD_PROJECT envReadme;
     env_GOOGLE_CLOUD_LOCATION := env_GOOGLE_CLOUD_LOCATION envReadme;
     env_VERTEX_MODEL := env_VERTEX_MODEL envReadme;
     env_VERTEX_RAG_CORPUS := env_VERTEX_RAG_CORPUS envReadme;
     env_VERTEX_RAG_TOP_K := v |}.

Definition okResponse {P} (payload : P) : Response P :=
  {| status := 200; bodyText := []; bodyJson := Return payload |}.

Definition failedResponse {P} (code : N) (details : jsstring) : Response P :=
  {| status := code; bodyText := details;
     bodyJson := Throw (ErrorObj (lit "Unexpected token")) |}.

Definition worldOf (retrieval : FetchOutcome RetrievePayload)
    (generation : FetchOutcome GeneratePayload) : World :=
  {| processEnv := envReadme;
     credentials := fun _ => AuthToken (Some (lit "ya29.token"));
     retrieveContexts := fun _ => retrieval;
     generateContent := fun _ => generation |}.

Definition payloadOf (items : list ContextItem) : RetrievePayload :=
  {| payload_contexts := Some {| inner_contexts := Some items |} |}.

Definition item (t : jsstring) (uri : option jsstring) : ContextItem :=
  {| item_text := Some t; item_sourceUri := uri |}.

Definition answerOf (texts : list jsstring) : GeneratePayload :=
  {| candidates :=
       Some [ {| cand_content :=
                   Some {| parts := Some ((fun t => {| part_text := Some t |}) <$> texts) |} |} ] |}.

Definition turn (r c : string) : Turn := {| role := lit r; content := lit c |}.

Definition question : jsstring := lit "What irrigation schedule is recommended?".

Definition ask (h : HistoryField) : ChatBody :=
  {| message := Some question; history := h |}.

Definition irrigation : list ContextItem :=
  [ item (lit "Irrigate twice weekly...") (Some (lit "doc1.pdf")) ].

Definition tenTurns : list Turn :=
  [ turn "user" "q1"; turn "assistant" "a1"; turn "user" "q2"; turn "assistant" "a2";
    turn "user" "q3"; turn "assistant" "a3"; turn "user" "q4"; turn "assistant" "a4";
    turn "user" "q5"; turn "assistant" "a5" ].

Definition mixedSources : list ContextItem :=
  [ item (lit "Mulch retains moisture.") (Some (lit "doc1.pdf"));
    item (lit "Drip lines save water.") (Some (lit "doc2.pdf"));
    item (lit "Water early in the day.") (Some (lit "doc1.pdf"));
    item (lit "Check soil weekly.") None;
    item (lit "   ") (Some (lit "doc3.pdf")) ].

End Scenario.

(** ** Facts about the primitives *)

Section Primitives.
Import JS.

Lemma trimStart_suffix (s : jsstring) : trimStart s `suffix_of` s.
Proof.
  induction s as [|c s IH]; simpl; [done|].
  destruct (isWhiteSpace c); [by apply suffix_cons_r | done].
Qed.

Lemma trimEnd_prefix (s : jsstring) : trimEnd s `prefix_of` s.
Proof.
  unfold trimEnd.
  destruct (trimStart_suffix (reverse s)) as [k Hk].
  exists (reverse k).
  rewrite <- (reverse_involutive s), Hk at 1.
  by rewrite reverse_app.
Qed.

(** [trim] only removes code units at the two ends. *)
Lemma trim_infix (s : jsstring) : trim s `sublist_of` s ∧ ∃ a b, s = a ++ trim s ++ b.
Proof.
  unfold trim.
  destruct (trimStart_suffix s) as [a Ha].
  destruct (trimEnd_prefix (trimStart s)) as [b Hb].
  assert (Hs : s = a ++ trimEnd (trimStart s) ++ b) by (by rewrite <- Hb).
  split; [|by exists a, b].
  rewrite Hs at 2.
  apply sublist_inserts_l, sublist_inserts_r. done.
Qed.

Lemma trim_length (s : jsstring) : length (trim s) ≤ length s.
Proof. apply sublist_length, trim_infix. Qed.

Lemma slice_last (A : Type) (n : nat) (l : list A) :
  slice (- Z.of_nat (S n)) None l = drop (length l - S n) l.
Proof.
  unfold slice, relativeIndex.
  assert ((- Z.of_nat (S n) <? 0)%Z = true) as -> by (apply Z.ltb_lt; lia).
  replace (Z.to_nat (Z.max (Z.of_nat (length l) + - Z.of_nat (S n)) 0))
    with (length l - S n)%nat by lia.
  apply take_ge. rewrite length_drop. lia.
Qed.

Lemma slice_first (A : Type) (n : nat) (l : list A) :
  slice 0 (Some (Z.of_nat n)) l = take n l.
Proof.
  unfold slice, relativeIndex.
  change (0 <? 0)%Z with false. cbv iota.
  assert ((Z.of_nat n <? 0)%Z = false) as -> by (apply Z.ltb_ge; lia).
  rewrite Nat2Z.id. change (Z.to_nat 0) with 0%nat.
  rewrite Nat.min_0_l, Nat.sub_0_r, drop_0.
  destruct (decide (n ≤ length l)%nat).
  - by rewrite Nat.min_l.
  - rewrite Nat.min_r by lia. by rewrite !take_ge by lia.
Qed.

Lemma Set_new_snoc (l : list jsstring) (x : jsstring) :
  Set_new (l ++ [x]) = Set_add (Set_new l) x.
Proof. unfold Set_new. by rewrite foldl_app. Qed.

Lemma Set_new_elem (l : list jsstring) (u : jsstring) :
  u ∈ Set_new l ↔ u ∈ l.
Proof.
  revert u. induction l as [|x l IH] using rev_ind; intros u; [done|].
  rewrite Set_new_snoc. unfold Set_add.
  rewrite (elem_of_app l), list_elem_of_singleton.
  case_bool_decide as Hx.
  - rewrite IH. rewrite IH in Hx. split; [tauto|]. intros [?| ->]; done.
  - rewrite elem_of_app, list_elem_of_singleton, IH. done.
Qed.

Lemma Set_new_NoDup (l : list jsstring) : NoDup (Set_new l).
Proof.
  induction l as [|x l IH] using rev_ind; [constructor|].
  rewrite Set_new_snoc. unfold Set_add.
  case_bool_decide as Hx; [done|].
  apply NoDup_app. split; [done|]. split; [|apply NoDup_singleton].
  intros y Hy Hy'. apply list_elem_of_singleton in Hy'. by subst.
Qed.

Lemma firstOccurrence_app_l {A} (l l' : list A) a u :
  firstOccurrence l a u → firstOccurrence (l ++ l') a u.
Proof.
  intros [Ha Hfirst].
  pose proof (lookup_lt_Some _ _ _ Ha) as Hlt.
  split.
  - by rewrite lookup_app_l.
  - intros k Hk. rewrite lookup_app_l by lia. by apply Hfirst.
Qed.

Lemma firstOccurrence_exists {A} `{EqDecision A} (l : list A) u :
  u ∈ l → ∃ a, firstOccurrence l a u.
Proof.
  induction l as [|x l IH]; intros Hin; [by apply elem_of_nil in Hin|].
  destruct (decide (x = u)) as [->|Hne].
  - exists 0%nat. split; [done|]. intros k Hk. lia.
  - apply elem_of_cons in Hin as [->|Hin]; [done|].
    destruct (IH Hin) as (a & Ha & Hfirst).
    exists (S a). split; [done|].
    intros [|k] Hk; simpl; [congruence|]. apply Hfirst. lia.
Qed.

Lemma firstOccurrence_snoc {A} (l : list A) u :
  u ∉ l → firstOccurrence (l ++ [u]) (length l) u.
Proof.
  intros Hnot. split.
  - by rewrite lookup_app_r, Nat.sub_diag.
  - intros k Hk Hlook. rewrite lookup_app_l in Hlook by done.
    apply Hnot. by eapply list_elem_of_lookup_2.
Qed.

Lemma firstOccurrence_lt {A} (l : list A) a u :
  firstOccurrence l a u → (a < length l)%nat.
Proof. intros [Ha _]. by eapply lookup_lt_Some. Qed.

(** The members of [new Set(l)] come in the order of their first
    occurrences in [l]. *)
Lemma Set_new_order (l : list jsstring) (i j : nat) (u v : jsstring) :
  Set_new l !! i = Some u → Set_new l !! j = Some v → (i < j)%nat →
  ∃ a b, firstOccurrence l a u ∧ firstOccurrence l b v ∧ (a < b)%nat.
Proof.
  revert i j u v.
  induction l as [|x l IH] using rev_ind; intros i j u v Hi Hj Hij; [done|].
  rewrite Set_new_snoc in Hi, Hj. unfold Set_add in Hi, Hj.
  case_bool_decide as Hx.
  - destruct (IH _ _ _ _ Hi Hj Hij) as (a & b & Ha & Hb & Hab).
    exists a, b. eauto using @firstOccurrence_app_l.
  - pose proof (lookup_lt_Some _ _ _ Hj) as Hlen.
    rewrite length_app in Hlen. simpl in Hlen.
    destruct (decide (j < length (Set_new l))%nat) as [Hlt|Hge].
    + rewrite lookup_app_l in Hi, Hj by lia.
      destruct (IH _ _ _ _ Hi Hj Hij) as (a & b & Ha & Hb & Hab).
      exists a, b. eauto using @firstOccurrence_app_l.
    + assert (j = length (Set_new l)) as -> by lia.
      rewrite lookup_app_l in Hi by lia.
      rewrite lookup_app_r, Nat.sub_diag in Hj by lia.
      injection Hj as <-.
      assert (Hu : u ∈ l).
      { apply Set_new_elem. by eapply list_elem_of_lookup_2. }
      destruct (firstOccurrence_exists l u Hu) as [a Ha].
      exists a, (length l).
      split; [by apply firstOccurrence_app_l|].
      split; [apply firstOccurrence_snoc; by rewrite <- Set_new_elem|].
      by eapply firstOccurrence_lt.
Qed.

End Primitives.

(** ** Facts about the server *)

Section ServerFacts.
Import JS Server.

Ltac run := unfold bind, ret, throw, emit, trace, lift, try_catch in *.

Lemma requireVertexConfig_trace env tr :
  ∃ o, requireVertexConfig env tr = (o, tr).
Proof.
  unfold requireVertexConfig. run.
  repeat case_match; eauto.
Qed.

Lemma getAccessToken_trace w tr :
  ∃ o, getAccessToken w tr = (o, tr ++ [CallAccessToken]).
Proof.
  unfold getAccessToken. run.
  repeat case_match; eauto.
Qed.

(** Every way [retrieveFromVertexCorpus] can go: the configuration is
    rejected before any call, the token is not obtained, or exactly one
    [retrieveContexts] request is sent and its response decides. *)
Lemma retrieve_inv w q k tr o tr' :
  retrieveFromVertexCorpus w q k tr = (o, tr') →
  (tr' = tr ∧ ∃ e, o = Throw e)
  ∨ (tr' = tr ++ [CallAccessToken] ∧ ∃ e, o = Throw e)
  ∨ ∃ tok,
      let rq := retrieveRequest (processEnv w) tok q k in
      tr' = tr ++ [CallAccessToken; CallRetrieve rq]
      ∧ match retrieveContexts w rq with
        | FetchRejects e => o = Throw e
        | FetchResponse resp =>
            if ok resp then
              o = match bodyJson resp with
                  | Return p => Return (contextsOfPayload p)
                  | Throw e => Throw e
                  end
            else
              o = Throw (ErrorObj (lit "Vertex retrieveContexts failed: "
                                   ++ decimal (status resp) ++ lit " "
                                   ++ bodyText resp))
        end.
Proof.
  unfold retrieveFromVertexCorpus. run.
  destruct (requireVertexConfig_trace (processEnv w) tr) as [o1 ->].
  destruct o1 as [[]|e]; [|intros [= <- <-]; eauto].
  destruct (getAccessToken_trace w tr) as [o2 ->].
  destruct o2 as [tok|e]; [|intros [= <- <-]; eauto 6].
  intros H. right. right. exists tok. cbv zeta.
  rewrite <- (assoc_L (++)) in H. simpl in H.
  destruct (retrieveContexts w _) as [e|resp]; [by inversion H|].
  destruct (ok resp); simpl in H; [|by inversion H].
  destruct (bodyJson resp); by inversion H.
Qed.

Lemma generate_inv w m h pc tr o tr' :
  generateWithVertex w m h pc tr = (o, tr') →
  (tr' = tr ∧ ∃ e, o = Throw e)
  ∨ (tr' = tr ++ [CallAccessToken] ∧ ∃ e, o = Throw e)
  ∨ ∃ tok,
      let rq := generateRequest (processEnv w) tok m h pc in
      tr' = tr ++ [CallAccessToken; CallGenerate rq]
      ∧ match generateContent w rq with
        | FetchRejects e => o = Throw e
        | FetchResponse resp =>
            if ok resp then
              o = match bodyJson resp with
                  | Return p => Return (or_else (candidateText p) NO_ANSWER)
                  | Throw e => Throw e
                  end
            else
              o = Throw (ErrorObj (lit "Vertex generateContent failed: "
                                   ++ decimal (status resp) ++ lit " "
                                   ++ bodyText resp))
        end.
Proof.
  unfold generateWithVertex. run.
  destruct (requireVertexConfig_trace (processEnv w) tr) as [o1 ->].
  destruct o1 as [[]|e]; [|intros [= <- <-]; eauto].
  destruct (getAccessToken_trace w tr) as [o2 ->].
  destruct o2 as [tok|e]; [|intros [= <- <-]; eauto 6].
  intros H. right. right. exists tok. cbv zeta.
  rewrite <- (assoc_L (++)) in H. simpl in H.
  destruct (generateContent w _) as [e|resp]; [by inversion H|].
  destruct (ok resp); simpl in H; [|by inversion H].
  destruct (bodyJson resp); by inversion H.
Qed.

(** Every way a request to [/api/chat] can go. *)
Lemma chat_inv w body r tr :
  handleChat w body = (r, tr) →
  let msg := trim (default [] (message body)) in
  (msg = [] ∧ tr = []
   ∧ r = Return (res_status_json 400 (ErrorBody (lit "message is required"))))
  ∨ (msg ≠ [] ∧ ∃ o1 tr1,
       retrieveFromVertexCorpus w msg (VERTEX_RAG_TOP_K (processEnv w)) [] = (o1, tr1)
       ∧ match o1 with
         | Throw e =>
             tr = tr1 ∧ r = Return (res_status_json 500 (ErrorBody (errorMessage e)))
         | Return [] =>
             tr = tr1 ∧ r = Return (res_json (ChatOk NO_CONTEXT []))
         | Return contexts =>
             ∃ o2,
               generateWithVertex w msg (historyOf body)
                 (join blankLine (imap chunkLine contexts)) tr1 = (o2, tr)
               ∧ r = match o2 with
                     | Return answer =>
                         Return (res_json (ChatOk answer (sourcesOf contexts)))
                     | Throw e =>
                         Return (res_status_json 500 (ErrorBody (errorMessage e)))
                     end
         end).
Proof.
  unfold handleChat, chatRoute. run. cbv zeta.
  destruct (trim (default [] (message body))) as [|c msg] eqn:Hmsg.
  - intros [= <- <-]. by left.
  - intros H. right. split; [done|].
    destruct (retrieveFromVertexCorpus w (c :: msg) _ []) as [o1 tr1] eqn:Hr.
    exists o1, tr1. split; [done|].
    destruct o1 as [[|x contexts]|e]; simpl in H.
    + by inversion H.
    + destruct (generateWithVertex w (c :: msg) _ _ tr1) as [o2 tr2] eqn:Hg.
      exists o2. destruct o2; inversion H; by subst.
    + by inversion H.
Qed.

(** The route always answers: no exception escapes its [catch]. *)
Lemma chat_responds w body : ∃ r tr, handleChat w body = (Return r, tr).
Proof.
  destruct (handleChat w body) as [r tr] eqn:H.
  destruct (chat_inv _ _ _ _ H) as [(_ & _ & ->)|(_ & o1 & tr1 & _ & Hc)]; [eauto|].
  destruct o1 as [[|x cs]|e].
  - destruct Hc as [_ ->]. eauto.
  - destruct Hc as (o2 & _ & ->). destruct o2; eauto.
  - destruct Hc as [_ ->]. eauto.
Qed.

Lemma or_else_nonempty (a : option jsstring) (b : jsstring) :
  b ≠ [] → or_else a b ≠ [].
Proof. by destruct a as [[|c s]|]. Qed.

Lemma join_empty_concat (xs : list jsstring) : join [] xs = concat xs.
Proof.
  induction xs as [|x [|y xs] IH]; simpl in *; [done| |].
  - by rewrite app_nil_r.
  - by rewrite IH.
Qed.

(** No [generateContent] call is made by the retrieval function. *)
Lemma retrieve_no_generate w q k o tr :
  retrieveFromVertexCorpus w q k [] = (o, tr) →
  Forall (fun e => isGenerateCall e = false) tr.
Proof.
  intros H. apply retrieve_inv in H.
  destruct H as [(-> & _)|[(-> & _)|(tok & -> & _)]]; repeat constructor.
Qed.

Lemma Math_max_one_ge (x : jsnum) :
  x ≠ NaN → leb (ofZ 1) (Math_max (ofZ 1) x) = true.
Proof.
  destruct x as [|[]|q]; intros Hx; [done|reflexivity..|].
  unfold Math_max, ofZ. destruct (Qle_bool (1 # 1) q) eqn:E; simpl; [exact E | reflexivity].
Qed.

Lemma Math_max_one_integer (x : jsnum) :
  isInteger x = true → isInteger (Math_max (ofZ 1) x) = true.
Proof.
  destruct x as [|[]|q]; simpl; [done..|].
  destruct (Qle_bool (1 # 1) q); [done | reflexivity].
Qed.

(** A [retrieveContexts] call of a request carries the configured top-K. *)
Lemma chat_retrieve_request w body r tr rq :
  handleChat w body = (r, tr) → CallRetrieve rq ∈ tr →
  ∃ tok, rq = retrieveRequest (processEnv w) tok
                (trim (default [] (message body)))
                (VERTEX_RAG_TOP_K (processEnv w)).
Proof.
  intros Hc Hin. apply chat_inv in Hc. cbv zeta in Hc.
  destruct Hc as [(_ & -> & _)|(_ & o1 & tr1 & Hr & Hcase)];
    [by apply elem_of_nil in Hin|].
  assert (Hin1 : CallRetrieve rq ∈ tr1).
  { destruct o1 as [[|c cs]|e]; [by destruct Hcase as [-> _]| |by destruct Hcase as [-> _]].
    destruct Hcase as (o2 & Hg & _). apply generate_inv in Hg.
    destruct Hg as [(-> & _)|[(-> & _)|(tok & -> & _)]]; [done|..];
      apply elem_of_app in Hin as [Hin|Hin]; try done;
      repeat (apply elem_of_cons in Hin as [Hin|Hin]; [discriminate|]);
      by apply elem_of_nil in Hin. }
  apply retrieve_inv in Hr. simpl in Hr.
  destruct Hr as [(-> & _)|[(-> & _)|(tok & -> & _)]].
  - by apply elem_of_nil in Hin1.
  - apply elem_of_cons in Hin1 as [?|Hin1]; [discriminate|by apply elem_of_nil in Hin1].
  - exists tok.
    apply elem_of_cons in Hin1 as [?|Hin1]; [discriminate|].
    apply elem_of_cons in Hin1 as [?|Hin1]; [congruence|by apply elem_of_nil in Hin1].
Qed.

End ServerFacts.

(** ** The orchestration contract of [/api/chat] *)

Section ChatContract.
Import JS Server.

(** Case analysis on a membership in a trace that is known call by call. *)
Ltac member_cases H :=
  repeat first
    [ apply elem_of_nil in H; destruct H
    | apply elem_of_cons in H as [H|H]; [simplify_eq|] ].

(** C4. A request whose [message] is absent, or is a string that trims to
    the empty string, is answered with status 400 and the body
    [{error: "message is required"}], and no outbound call is made: neither
    the credential client, nor retrieval, nor generation. *)
Theorem blank_message_rejected (w : World) (body : ChatBody) :
  message body = None ∨ (∃ s, message body = Some s ∧ trim s = []) →
  handleChat w body =
    (Return {| res_status := 400%N;
               res_body := ErrorBody (lit "message is required") |}, []).
Proof.
  intros H.
  assert (Hm : trim (default [] (message body)) = []).
  { destruct H as [->|(s & -> & Hs)]; [reflexivity | exact Hs]. }
  unfold handleChat, chatRoute, try_catch.
  rewrite Hm. reflexivity.
Qed.

Lemma blank_message_rejected_witness :
  handleChat (Scenario.worldOf (FetchRejects NotAnError) (FetchRejects NotAnError))
    {| message := Some (lit "  "); history := NotAnArray |}
  = (Return {| res_status := 400%N;
               res_body := ErrorBody (lit "message is required") |}, []).
Proof.
  apply blank_message_rejected.
  right. exists (lit "  "). split; reflexivity.
Defined.

(** C1. When the message is non-empty after trimming and the retrieval call
    returns no context, the response is 200 with the fixed no-context
    answer and an empty [sources], and the trace of the request holds no
    call of the generation endpoint. *)
Theorem no_context_fallback (w : World) (body : ChatBody) (tr : list event) :
  trim (default [] (message body)) ≠ [] →
  retrieveFromVertexCorpus w (trim (default [] (message body)))
    (VERTEX_RAG_TOP_K (processEnv w)) [] = (Return [], tr) →
  handleChat w body =
    (Return {| res_status := 200%N;
               res_body := ChatOk (lit "I could not retrieve relevant context from the configured Vertex corpus. Try rephrasing your question.") [] |},
     tr)
  ∧ Forall (fun e => isGenerateCall e = false) tr.
Proof.
  intros Hmsg Hret.
  destruct (handleChat w body) as [r tr'] eqn:Hc.
  apply chat_inv in Hc. cbv zeta in Hc.
  destruct Hc as [(Hnil & _)|(_ & o1 & tr1 & Hr & Hcase)]; [done|].
  rewrite Hret in Hr. injection Hr as <- <-.
  destruct Hcase as [-> ->].
  split; [reflexivity|].
  apply retrieve_inv in Hret.
  destruct Hret as [(-> & _)|[(-> & _)|(tok & -> & _)]];
    repeat constructor.
Qed.

Lemma no_context_fallback_witness :
  let w := Scenario.worldOf
             (FetchResponse (Scenario.okResponse (Scenario.payloadOf [])))
             (FetchRejects NotAnError) in
  ∃ tr,
    handleChat w (Scenario.ask NotAnArray) =
      (Return {| res_status := 200%N;
                 res_body := ChatOk (lit "I could not retrieve relevant context from the configured Vertex corpus. Try rephrasing your question.") [] |},
       tr)
    ∧ Forall (fun e => isGenerateCall e = false) tr.
Proof.
  intros w. eexists.
  apply (no_context_fallback w (Scenario.ask NotAnArray)).
  - vm_compute. discriminate.
  - vm_compute. reflexivity.
Defined.

(** C5. If the request sent a [retrieveContexts] call, or a
    [generateContent] call, and the endpoint answered it with a non-success
    status, the route answers 500 with [{error}] carrying that status and
    the response body text; the call was made once (the trace shows every
    call of the request), nothing was retried and no answer is returned. *)
Theorem upstream_failure (w : World) (body : ChatBody)
    (r : outcome HttpResponse) (tr : list event) :
  handleChat w body = (r, tr) →
  (∀ rq resp,
     CallRetrieve rq ∈ tr →
     retrieveContexts w rq = FetchResponse resp →
     ok resp = false →
     r = Return {| res_status := 500%N;
                   res_body := ErrorBody (lit "Vertex retrieveContexts failed: "
                                          ++ decimal (status resp) ++ lit " "
                                          ++ bodyText resp) |}
     ∧ tr = [CallAccessToken; CallRetrieve rq])
  ∧ (∀ rq resp,
       CallGenerate rq ∈ tr →
       generateContent w rq = FetchResponse resp →
       ok resp = false →
       r = Return {| res_status := 500%N;
                     res_body := ErrorBody (lit "Vertex generateContent failed: "
                                            ++ decimal (status resp) ++ lit " "
                                            ++ bodyText resp) |}
       ∧ ∃ rq1, tr = [CallAccessToken; CallRetrieve rq1; CallAccessToken; CallGenerate rq]).
Proof.
  intros Hc. apply chat_inv in Hc. cbv zeta in Hc.
  destruct Hc as [(_ & -> & _)|(_ & o1 & tr1 & Hr & Hcase)].
  { split; intros rq resp Hin; member_cases Hin. }
  apply retrieve_inv in Hr. simpl in Hr.
  destruct Hr as [(-> & e & ->)|[(-> & e & ->)|(tok & -> & Hresp)]].
  - destruct Hcase as [-> _].
    split; intros rq resp Hin; member_cases Hin.
  - destruct Hcase as [-> _].
    split; intros rq resp Hin; member_cases Hin.
  - destruct o1 as [contexts|e].
    + (* retrieval returned: its response was a success *)
      assert (Hok : ∀ resp,
                retrieveContexts w (retrieveRequest (processEnv w) tok
                  (trim (default [] (message body)))
                  (VERTEX_RAG_TOP_K (processEnv w))) = FetchResponse resp →
                ok resp = false → False).
      { intros resp Hw Hno. rewrite Hw, Hno in Hresp. discriminate. }
      destruct contexts as [|c cs].
      * destruct Hcase as [-> _].
        split; intros rq resp Hin Hw Hno; member_cases Hin.
        by destruct (Hok resp).
      * destruct Hcase as (o2 & Hg & ->).
        apply generate_inv in Hg. simpl in Hg.
        destruct Hg as [(-> & e & ->)|[(-> & e & ->)|(tok2 & -> & Hresp2)]].
        -- split; intros rq resp Hin Hw Hno; member_cases Hin.
           by destruct (Hok resp).
        -- split; intros rq resp Hin Hw Hno; member_cases Hin.
           by destruct (Hok resp).
        -- split; intros rq resp Hin Hw Hno; member_cases Hin.
           ++ by destruct (Hok resp).
           ++ rewrite Hw, Hno in Hresp2. subst o2.
              split; [reflexivity|]. eauto.
    + destruct Hcase as [-> ->].
      split; intros rq resp Hin Hw Hno; member_cases Hin.
      rewrite Hw, Hno in Hresp. injection Hresp as ->.
      split; reflexivity.
Qed.

Lemma upstream_failure_witness :
  (∃ tr rq,
     handleChat
       (Scenario.worldOf
          (FetchResponse (Scenario.failedResponse 503 (lit "corpus unavailable")))
          (FetchRejects NotAnError))
       (Scenario.ask NotAnArray)
     = (Return {| res_status := 500%N;
                  res_body := ErrorBody (lit "Vertex retrieveContexts failed: 503 corpus unavailable") |},
        tr)
     ∧ tr = [CallAccessToken; CallRetrieve rq])
  ∧ (∃ tr rq1 rq,
       handleChat
         (Scenario.worldOf
            (FetchResponse (Scenario.okResponse (Scenario.payloadOf Scenario.irrigation)))
            (FetchResponse (Scenario.failedResponse 429 (lit "quota exceeded"))))
         (Scenario.ask NotAnArray)
       = (Return {| res_status := 500%N;
                    res_body := ErrorBody (lit "Vertex generateContent failed: 429 quota exceeded") |},
          tr)
       ∧ tr = [CallAccessToken; CallRetrieve rq1; CallAccessToken; CallGenerate rq]).
Proof.
  split.
  - set (w := Scenario.worldOf _ _).
    destruct (handleChat w (Scenario.ask NotAnArray)) as [r tr] eqn:Hc.
    pose proof (proj1 (upstream_failure w _ r tr Hc)) as H.
    assert (Htr : ∃ rq, tr = [CallAccessToken; CallRetrieve rq]).
    { vm_compute in Hc. injection Hc as _ <-. eexists. reflexivity. }
    destruct Htr as [rq Htr].
    destruct (H rq (Scenario.failedResponse 503 (lit "corpus unavailable")))
      as [-> _]; [rewrite Htr; repeat constructor | reflexivity | reflexivity |].
    exists tr, rq. split; [reflexivity | exact Htr].
  - set (w := Scenario.worldOf _ _).
    destruct (handleChat w (Scenario.ask NotAnArray)) as [r tr] eqn:Hc.
    pose proof (proj2 (upstream_failure w _ r tr Hc)) as H.
    assert (Htr : ∃ rq1 rq, tr = [CallAccessToken; CallRetrieve rq1;
                                 CallAccessToken; CallGenerate rq]).
    { vm_compute in Hc. injection Hc as _ <-. eexists _, _. reflexivity. }
    destruct Htr as (rq1 & rq & Htr).
    destruct (H rq (Scenario.failedResponse 429 (lit "quota exceeded")))
      as [-> _]; [rewrite Htr; repeat constructor | reflexivity | reflexivity |].
    exists tr, rq1, rq. split; [reflexivity | exact Htr].
Defined.

(** C10. A response with status 200 carries an answer and sources, and the
    answer is never the empty string; and when the first candidate of the
    generation payload has text parts whose concatenation trims to the empty
    string, [generateWithVertex] returns "I do not have an answer.". *)
Theorem answer_never_empty :
  (∀ (w : World) (body : ChatBody) (r : HttpResponse) (tr : list event),
     handleChat w body = (Return r, tr) →
     res_status r = 200%N →
     ∃ answer sources, res_body r = ChatOk answer sources ∧ answer ≠ [])
  ∧ (∀ (w : World) m h pc tr tok resp payload c cs ct ps,
       requireVertexConfig (processEnv w) tr = (Return tt, tr) →
       getAccessToken w tr = (Return tok, tr ++ [CallAccessToken]) →
       generateContent w (generateRequest (processEnv w) tok m h pc)
         = FetchResponse resp →
       ok resp = true →
       bodyJson resp = Return payload →
       candidates payload = Some (c :: cs) →
       cand_content c = Some ct →
       parts ct = Some ps →
       trim (concat ((fun p => default [] (part_text p)) <$> ps)) = [] →
       generateWithVertex w m h pc tr
       = (Return (lit "I do not have an answer."),
          tr ++ [CallAccessToken;
                 CallGenerate (generateRequest (processEnv w) tok m h pc)])).
Proof.
  split.
  - intros w body r tr Hc Hst.
    apply chat_inv in Hc. cbv zeta in Hc.
    destruct Hc as [(_ & _ & [= ->])|(_ & o1 & tr1 & Hr & Hcase)]; [done|].
    destruct o1 as [[|c cs]|e].
    + destruct Hcase as [_ [= ->]]. by eexists _, _.
    + destruct Hcase as (o2 & Hg & Hres).
      destruct o2 as [answer|e]; injection Hres as ->; [|done].
      eexists _, _. split; [reflexivity|].
      apply generate_inv in Hg.
      destruct Hg as [(_ & ? & ?)|[(_ & ? & ?)|(tok & _ & Hresp)]]; [done..|].
      destruct (generateContent w _) as [|resp]; [done|].
      destruct (ok resp); [|done].
      destruct (bodyJson resp); [|done].
      injection Hresp as ->. by apply or_else_nonempty.
    + destruct Hcase as [_ [= ->]]. done.
  - intros w m h pc tr tok resp payload c cs ct ps
      Hcfg Htok Hgen Hok Hjson Hcands Hcontent Hparts Hblank.
    unfold generateWithVertex, bind, emit, lift, ret.
    rewrite Hcfg, Htok, Hgen, Hok, Hjson. simpl.
    unfold candidateText. rewrite Hcands. simpl.
    rewrite Hcontent. simpl. rewrite Hparts. simpl.
    rewrite join_empty_concat, Hblank. simpl.
    by rewrite <- (assoc_L (++)).
Qed.

Lemma answer_never_empty_witness :
  (∃ answer sources tr,
     handleChat
       (Scenario.worldOf
          (FetchResponse (Scenario.okResponse (Scenario.payloadOf Scenario.irrigation)))
          (FetchResponse (Scenario.okResponse (Scenario.answerOf [lit " "; lit ""]))))
       (Scenario.ask NotAnArray)
     = (Return {| res_status := 200%N; res_body := ChatOk answer sources |}, tr)
     ∧ answer ≠ [])
  ∧ (∃ rq,
       generateWithVertex
         (Scenario.worldOf (FetchRejects NotAnError)
            (FetchResponse (Scenario.okResponse (Scenario.answerOf [lit " "; lit ""]))))
         Scenario.question [] (lit "[Chunk 1] Irrigate twice weekly...") []
       = (Return (lit "I do not have an answer."),
          [CallAccessToken; CallGenerate rq])).
Proof.
  split.
  - set (w := Scenario.worldOf _ _).
    destruct (chat_responds w (Scenario.ask NotAnArray)) as (r & tr & Hc).
    assert (Hst : res_status r = 200%N).
    { vm_compute in Hc. by injection Hc as <- _. }
    destruct (proj1 answer_never_empty w _ r tr Hc Hst)
      as (answer & sources & Hbody & Hne).
    exists answer, sources, tr. split; [|exact Hne].
    rewrite Hc. destruct r as [st b]. simpl in *. by rewrite Hst, Hbody.
  - eexists.
    eapply (proj2 answer_never_empty _ _ _ _ [] (lit "ya29.token")
              (Scenario.okResponse (Scenario.answerOf [lit " "; lit ""])));
      reflexivity.
Defined.

(** C2. The history the route works with is the last turns of the provided
    array, at most 8 of them, in their order (nothing when no array is
    provided), and it is what a [generateContent] call of the request
    carries: its [contents] are these turns, role-mapped, followed by the
    current user turn. *)
Theorem history_window (w : World) (body : ChatBody)
    (r : outcome HttpResponse) (tr : list event) :
  handleChat w body = (r, tr) →
  let provided := match history body with
                  | AnArray turns => turns
                  | NotAnArray => []
                  end in
  length (historyOf body) ≤ 8
  ∧ historyOf body = drop (length provided - 8) provided
  ∧ (∀ rq, CallGenerate rq ∈ tr →
       gq_contents rq =
         (vertexTurn <$> historyOf body)
         ++ [ {| vc_role := lit "user";
                 vc_parts := [trim (default [] (message body))] |} ]).
Proof.
  intros Hc provided.
  assert (Hh : historyOf body = drop (length provided - 8) provided).
  { unfold historyOf, provided. destruct (history body) as [|turns]; [done|].
    change (-8)%Z with (- Z.of_nat 8)%Z. apply slice_last. }
  split; [rewrite Hh, length_drop; lia|].
  split; [exact Hh|].
  intros rq Hin.
  apply chat_inv in Hc. cbv zeta in Hc.
  destruct Hc as [(_ & -> & _)|(_ & o1 & tr1 & Hr & Hcase)]; [member_cases Hin|].
  pose proof (retrieve_no_generate _ _ _ _ _ Hr) as Hno.
  assert (Hnot : CallGenerate rq ∉ tr1).
  { intros Hin1. rewrite Forall_forall in Hno. by specialize (Hno _ Hin1). }
  destruct o1 as [[|c cs]|e].
  - destruct Hcase as [-> _]. done.
  - destruct Hcase as (o2 & Hg & _).
    apply generate_inv in Hg.
    destruct Hg as [(-> & _)|[(-> & _)|(tok & -> & _)]]; [done| |].
    + apply elem_of_app in Hin as [Hin|Hin]; [done|member_cases Hin].
    + apply elem_of_app in Hin as [Hin|Hin]; [done|member_cases Hin].
      reflexivity.
  - destruct Hcase as [-> _]. done.
Qed.

Lemma history_window_witness :
  let w := Scenario.worldOf
             (FetchResponse (Scenario.okResponse (Scenario.payloadOf Scenario.irrigation)))
             (FetchResponse (Scenario.okResponse (Scenario.answerOf [lit "Twice a week."]))) in
  let body := Scenario.ask (AnArray Scenario.tenTurns) in
  historyOf body = drop 2 Scenario.tenTurns
  ∧ ∃ r tr rq,
      handleChat w body = (r, tr)
      ∧ CallGenerate rq ∈ tr
      ∧ length (gq_contents rq) = 9.
Proof.
  intros w body.
  destruct (handleChat w body) as [r tr] eqn:Hc.
  destruct (history_window w body r tr Hc) as (_ & Hh & Hgen).
  split; [exact Hh|].
  assert (Htr : ∃ rq, tr !! 3 = Some (CallGenerate rq)).
  { vm_compute in Hc. injection Hc as _ <-. eexists. reflexivity. }
  destruct Htr as [rq Htr].
  exists r, tr, rq. split; [reflexivity|].
  assert (Hin : CallGenerate rq ∈ tr) by (eapply list_elem_of_lookup_2; exact Htr).
  split; [exact Hin|].
  rewrite (Hgen rq Hin). reflexivity.
Defined.

(** C3. The [sources] of a 200 response list every [sourceUri] of the
    retrieved contexts exactly once, and in the order in which these URIs
    first occur among the contexts, whatever duplicates the contexts hold. *)
Theorem sources_first_seen (w : World) (body : ChatBody)
    (answer : jsstring) (sources : list jsstring) (tr : list event) :
  handleChat w body
    = (Return {| res_status := 200%N; res_body := ChatOk answer sources |}, tr) →
  ∃ contexts tr1,
    retrieveFromVertexCorpus w (trim (default [] (message body)))
      (VERTEX_RAG_TOP_K (processEnv w)) [] = (Return contexts, tr1)
    ∧ NoDup sources
    ∧ (∀ u, u ∈ sources ↔ u ∈ sourceUri <$> contexts)
    ∧ (∀ i j u v,
         sources !! i = Some u → sources !! j = Some v → i < j →
         ∃ a b, firstOccurrence (sourceUri <$> contexts) a u
                ∧ firstOccurrence (sourceUri <$> contexts) b v
                ∧ a < b).
Proof.
  intros Hc. apply chat_inv in Hc. cbv zeta in Hc.
  destruct Hc as [(_ & _ & [=])|(_ & o1 & tr1 & Hr & Hcase)].
  assert (Hsrc : ∃ contexts, o1 = Return contexts ∧ sources = sourcesOf contexts).
  { destruct o1 as [[|c cs]|e].
    - destruct Hcase as [_ [= _ ->]]. by exists [].
    - destruct Hcase as (o2 & _ & Hres).
      destruct o2; injection Hres as ?; [|done]. subst. by eexists.
    - by destruct Hcase as [_ [=]]. }
  destruct Hsrc as (contexts & -> & ->).
  exists contexts, tr1. split; [exact Hr|].
  unfold sourcesOf, Array_from.
  split; [apply Set_new_NoDup|].
  split; [intros u; apply Set_new_elem|].
  intros i j u v. apply Set_new_order.
Qed.

Lemma sources_first_seen_witness :
  ∃ answer tr,
    handleChat
      (Scenario.worldOf
         (FetchResponse (Scenario.okResponse (Scenario.payloadOf Scenario.mixedSources)))
         (FetchResponse (Scenario.okResponse (Scenario.answerOf [lit "Water early."]))))
      (Scenario.ask NotAnArray)
    = (Return {| res_status := 200%N;
                 res_body := ChatOk answer
                   [lit "doc1.pdf"; lit "doc2.pdf"; lit "unknown-source"] |}, tr)
    ∧ NoDup [lit "doc1.pdf"; lit "doc2.pdf"; lit "unknown-source"].
Proof.
  set (w := Scenario.worldOf _ _).
  pose proof (sources_first_seen w (Scenario.ask NotAnArray)) as H.
  destruct (handleChat w (Scenario.ask NotAnArray)) as [r tr] eqn:Hc.
  vm_compute in Hc. injection Hc as <- <-.
  eexists _, _. split; [reflexivity|].
  destruct (H _ _ _ eq_refl) as (_ & _ & _ & Hnd & _). exact Hnd.
Defined.

(** C9. An item of the retrieval payload without [sourceUri] is mapped to a
    context whose [sourceUri] is the literal "unknown-source"; a present
    [sourceUri] is trimmed and nothing more; the items whose text is missing
    or empty after trimming are dropped, the others are kept in order; and
    "unknown-source" does occur in the [sources] of a 200 response. *)
Theorem unknown_source_literal :
  (∀ t, sourceUri (toContext {| item_text := t; item_sourceUri := None |})
        = lit "unknown-source")
  ∧ (∀ t s, sourceUri (toContext {| item_text := t; item_sourceUri := Some s |})
            = trim s)
  ∧ (∀ payload,
       contextsOfPayload payload
       = toContext <$> filter (fun it => trim (default [] (item_text it)) ≠ [])
                         (payloadItems payload))
  ∧ (∃ w body answer sources tr,
       handleChat w body
       = (Return {| res_status := 200%N; res_body := ChatOk answer sources |}, tr)
       ∧ lit "unknown-source" ∈ sources).
Proof.
  split; [done|]. split; [done|]. split.
  - intros payload. unfold contextsOfPayload.
    induction (payloadItems payload) as [|it items IH]; [done|].
    rewrite fmap_cons, !filter_cons, IH.
    assert (Ht : text (toContext it) = trim (default [] (item_text it))).
    { unfold toContext. simpl. by destruct (item_text it). }
    unfold hasText. rewrite Ht.
    destruct (trim (default [] (item_text it))) as [|c s] eqn:E.
    + rewrite decide_False by (by intros [=]). by rewrite decide_False by auto.
    + rewrite decide_True by done. by rewrite decide_True by done.
  - exists (Scenario.worldOf
              (FetchResponse (Scenario.okResponse (Scenario.payloadOf Scenario.mixedSources)))
              (FetchResponse (Scenario.okResponse (Scenario.answerOf [lit "Water early."])))),
      (Scenario.ask NotAnArray).
    eexists _, _, _. split; [vm_compute; reflexivity|].
    repeat constructor.
Qed.

(** C6, as the code has it. The [topK] of a [retrieveContexts] call is
    [Math.max(1, Number(VERTEX_RAG_TOP_K ?? 4))]: it is 4 when the variable
    is unset and, whenever [Number] converts the variable to a number (not
    NaN), it is at least 1, and an integer when the converted value is one. *)
Theorem topK_at_least_one (w : World) (body : ChatBody)
    (r : outcome HttpResponse) (tr : list event) (rq : RetrieveRequest) :
  handleChat w body = (r, tr) →
  CallRetrieve rq ∈ tr →
  let v := env_VERTEX_RAG_TOP_K (processEnv w) in
  rq_topK rq = Math_max (ofZ 1) (Number_of_env v)
  ∧ (v = None → rq_topK rq = ofZ 4)
  ∧ (Number_of_env v ≠ NaN →
     leb (ofZ 1) (rq_topK rq) = true
     ∧ (isInteger (Number_of_env v) = true → isInteger (rq_topK rq) = true)).
Proof.
  intros Hc Hin v.
  destruct (chat_retrieve_request _ _ _ _ _ Hc Hin) as [tok ->].
  simpl. unfold VERTEX_RAG_TOP_K. fold v.
  split; [reflexivity|]. split.
  - intros ->. reflexivity.
  - intros Hnum. split; [by apply Math_max_one_ge|apply Math_max_one_integer].
Qed.

Lemma topK_at_least_one_witness :
  ∃ r tr rq,
    handleChat
      (Scenario.worldOf
         (FetchResponse (Scenario.okResponse (Scenario.payloadOf [])))
         (FetchRejects NotAnError))
      (Scenario.ask NotAnArray) = (r, tr)
    ∧ CallRetrieve rq ∈ tr
    ∧ rq_topK rq = ofZ 4
    ∧ leb (ofZ 1) (rq_topK rq) = true
    ∧ isInteger (rq_topK rq) = true.
Proof.
  set (w := Scenario.worldOf _ _).
  destruct (handleChat w (Scenario.ask NotAnArray)) as [r tr] eqn:Hc.
  assert (Htr : ∃ rq, tr !! 1 = Some (CallRetrieve rq)).
  { vm_compute in Hc. injection Hc as _ <-. eexists. reflexivity. }
  destruct Htr as [rq Htr].
  assert (Hin : CallRetrieve rq ∈ tr) by (eapply list_elem_of_lookup_2; exact Htr).
  destruct (topK_at_least_one w _ r tr rq Hc Hin) as (Hk & _ & Hge).
  destruct Hge as [Hone Hint]; [vm_compute; discriminate|].
  exists r, tr, rq.
  split; [reflexivity|]. split; [exact Hin|].
  split; [rewrite Hk; vm_compute; reflexivity|].
  split; [exact Hone|]. apply Hint. vm_compute. reflexivity.
Defined.

(** C6, as stated, fails: with [VERTEX_RAG_TOP_K=2.5] the top-K is 2.5,
    which is not an integer. *)
Lemma topK_not_always_integer :
  VERTEX_RAG_TOP_K (Scenario.withTopK (Some (lit "2.5"))) = Fin (5 # 2)
  ∧ isInteger (VERTEX_RAG_TOP_K (Scenario.withTopK (Some (lit "2.5")))) = false.
Proof. split; vm_compute; reflexivity. Qed.

(** A value that [Number] does not parse gives NaN, which [Math.max(1, _)]
    lets through. *)
Lemma topK_of_non_numeric :
  VERTEX_RAG_TOP_K (Scenario.withTopK (Some (lit "abc"))) = NaN.
Proof. vm_compute. reflexivity. Qed.

(** C7. For a non-empty list of contexts, [fallbackAnswer] is the question
    line, the notice that no model response was generated, and the
    snippets, joined by blank lines; there is one snippet per context, the
    i-th being the number i in parentheses, the first 280 code units of the
    context text (trimmed), and three dots. *)
Theorem fallback_template (question : jsstring) (contexts : list RetrievedContext) :
  contexts ≠ [] →
  ∃ snippets : list jsstring,
    fallbackAnswer question contexts
    = lit "Question: " ++ question ++ [10; 10]%N
      ++ lit "No model response was generated, so this answer is extractive from corpus matches:"
      ++ [10; 10]%N ++ join [10; 10]%N snippets
    ∧ length snippets = length contexts
    ∧ ∀ i c, contexts !! i = Some c →
        ∃ t, snippets !! i
             = Some (lit "(" ++ decimal (N.of_nat (i + 1)) ++ lit ") " ++ t ++ lit "...")
             ∧ t = trim (take 280 (text c))
             ∧ length t ≤ 280.
Proof.
  intros Hne. exists (imap previewLine contexts).
  split; [|split].
  - unfold fallbackAnswer.
    destruct contexts as [|c cs]; [done|].
    change (length (c :: cs) =? 0)%nat with false. cbv iota.
    cbn [join]. by rewrite <- (assoc_L (++)).
  - apply length_imap.
  - intros i c Hi. exists (trim (take 280 (text c))).
    split; [|split; [reflexivity|]].
    + rewrite list_lookup_imap, Hi. simpl. unfold previewLine.
      change 280%Z with (Z.of_nat 280). by rewrite slice_first.
    + etrans; [apply trim_length|]. rewrite length_take. lia.
Qed.

Lemma fallback_template_witness :
  ∃ snippets : list jsstring,
    fallbackAnswer Scenario.question
      [ {| text := lit "Irrigate twice weekly..."; sourceUri := lit "doc1.pdf" |} ]
    = lit "Question: " ++ Scenario.question ++ [10; 10]%N
      ++ lit "No model response was generated, so this answer is extractive from corpus matches:"
      ++ [10; 10]%N ++ join [10; 10]%N snippets
    ∧ snippets !! 0 = Some (lit "(1) Irrigate twice weekly......").
Proof.
  destruct (fallback_template Scenario.question
              [ {| text := lit "Irrigate twice weekly..."; sourceUri := lit "doc1.pdf" |} ])
    as (snippets & Heq & _ & Hsnip); [discriminate|].
  exists snippets. split; [exact Heq|].
  destruct (Hsnip 0 _ eq_refl) as (t & Ht & Htrim & _).
  subst t. exact Ht.
Defined.

End ChatContract.

(** ** The submit handler of the chat surface *)

Section SurfaceContract.
Import JS ChatSurface.

(** While a submission is in flight the component is loading and holds a
    cancellation handle; otherwise it is not loading and holds none. *)
Lemma inflight_invariant (st : State) :
  reachable st →
  match pending st with
  | Some _ => loading st = true ∧ is_Some (abortRef st)
  | None => loading st = false ∧ abortRef st = None
  end.
Proof.
  induction 1 as [|st a st' Hreach IH Hstep]; [done|].
  destruct Hstep as [st v|st st' Hs|st Hs|st|st rq r Hp].
  - exact IH.
  - unfold onSubmit_start in Hs.
    destruct (trim (input st)); [done|].
    destruct (loading st); [done|].
    injection Hs as <-. simpl. eauto.
  - exact IH.
  - unfold onStop. destruct (abortRef st) eqn:E; simpl; [|by rewrite E].
    destruct (pending st); [|by destruct IH]. destruct IH. eauto.
  - done.
Qed.

(** C8. However the awaited call of a submission settles (a 2xx response
    with a JSON body, a response whose body does not parse, a non-success
    status, a network failure, an abort), the component ends not loading
    and with an empty cancellation handle; and whenever no submission is in
    flight, it is not loading and holds no handle. *)
Theorem submission_releases (st : State) :
  reachable st →
  (∀ r st', step st (Settle r) st' →
     loading st' = false ∧ abortRef st' = None ∧ pending st' = None)
  ∧ (pending st = None → loading st = false ∧ abortRef st = None).
Proof.
  intros Hreach. split.
  - intros r st' Hstep. inversion Hstep; subst. done.
  - intros Hp. pose proof (inflight_invariant st Hreach) as H.
    by rewrite Hp in H.
Qed.

Lemma submission_releases_witness :
  ∃ st2,
    onSubmit_start (onChange initial (lit "When should I irrigate?")) = Some st2
    ∧ loading st2 = true
    ∧ (let st3 := onSubmit_resume (onStop st2)
                    (Rejected (ErrorObj (lit "The user aborted a request."))) in
       loading st3 = false ∧ abortRef st3 = None ∧ pending st3 = None)
    ∧ (loading initial = false ∧ abortRef initial = None).
Proof.
  eexists. split; [vm_compute; reflexivity|].
  split; [reflexivity|].
  match goal with
  | |- (let st3 := onSubmit_resume (onStop ?st2) ?r in _) ∧ _ =>
      assert (Hreach : reachable (onStop st2))
  end.
  { eapply reach_step; [|apply step_stop].
    eapply (reach_step (onChange initial (lit "When should I irrigate?")) Submit);
      [|apply step_submit; vm_compute; reflexivity].
    eapply reach_step; [apply reach_initial|apply step_change]. }
  split.
  - eapply (proj1 (submission_releases _ Hreach)).
    eapply step_settle. reflexivity.
  - apply (proj2 (submission_releases initial reach_initial)). reflexivity.
Defined.

End SurfaceContract.

(** ** More on the primitives *)

Section TrimFacts.
Import JS.

Lemma trimStart_length (s : jsstring) : length (trimStart s) ≤ length s.
Proof. apply suffix_length, trimStart_suffix. Qed.

(** [trimStart] leaves a string alone exactly when it does not start with
    white space. *)
Lemma trimStart_fixed (s : jsstring) :
  trimStart s = s ↔ match s with [] => True | c :: _ => isWhiteSpace c = false end.
Proof.
  destruct s as [|c s]; [done|]. simpl.
  destruct (isWhiteSpace c) eqn:E; [|done].
  split; [|done]. intros H.
  pose proof (trimStart_length s) as Hlen. rewrite H in Hlen. simpl in Hlen. lia.
Qed.

Lemma trimStart_idemp (s : jsstring) : trimStart (trimStart s) = trimStart s.
Proof.
  induction s as [|c s IH]; [done|]. simpl.
  destruct (isWhiteSpace c) eqn:E; [exact IH|]. simpl. by rewrite E.
Qed.

Lemma trimEnd_idemp (s : jsstring) : trimEnd (trimEnd s) = trimEnd s.
Proof. unfold trimEnd. by rewrite reverse_involutive, trimStart_idemp. Qed.

Lemma trimStart_trimEnd (s : jsstring) :
  trimStart s = s → trimStart (trimEnd s) = trimEnd s.
Proof.
  intros Hs. apply trimStart_fixed. apply trimStart_fixed in Hs.
  destruct (trimEnd_prefix s) as [k Hk].
  destruct (trimEnd s) as [|c u]; [done|].
  rewrite Hk in Hs. exact Hs.
Qed.

Lemma trim_idemp (s : jsstring) : trim (trim s) = trim s.
Proof.
  unfold trim.
  rewrite (trimStart_trimEnd (trimStart s)) by apply trimStart_idemp.
  apply trimEnd_idemp.
Qed.

End TrimFacts.

(** ** More on the server: configuration, credentials, call discipline *)

Section ServerExtras.
Import JS Server.

Ltac run := unfold bind, ret, throw, emit, trace, lift, try_catch in *.

Ltac member_cases H :=
  repeat first
    [ apply elem_of_nil in H; destruct H
    | apply elem_of_cons in H as [H|H]; [simplify_eq|] ].

Lemma or_else_trim_nonempty (v : option jsstring) :
  or_else (trim <$> v) [] ≠ [] ↔ ∃ s, v = Some s ∧ trim s ≠ [].
Proof.
  destruct v as [s|]; simpl.
  - destruct (trim s) as [|c t] eqn:E; simpl.
    + split; [done|]. intros (s' & [= <-] & H). by rewrite E in H.
    + split; [|done]. intros _. exists s. by rewrite E.
  - split; [done|]. by intros (s' & [=] & _).
Qed.

Lemma VERTEX_MODEL_nonempty (env : ProcessEnv) : VERTEX_MODEL env ≠ [].
Proof. unfold VERTEX_MODEL. by apply or_else_nonempty. Qed.

Lemma config_ok_iff (env : ProcessEnv) (tr : list event) :
  requireVertexConfig env tr = (Return tt, tr)
  ↔ GOOGLE_CLOUD_PROJECT env ≠ [] ∧ GOOGLE_CLOUD_LOCATION env ≠ []
    ∧ VERTEX_RAG_CORPUS env ≠ [].
Proof.
  unfold requireVertexConfig. run.
  pose proof (VERTEX_MODEL_nonempty env) as Hm.
  destruct (GOOGLE_CLOUD_PROJECT env), (GOOGLE_CLOUD_LOCATION env),
    (VERTEX_MODEL env), (VERTEX_RAG_CORPUS env);
    try done; split; try done; intros H; try discriminate H; tauto.
Qed.

(** The three messages [requireVertexConfig] can throw. *)
Lemma config_error_cases (env : ProcessEnv) (tr : list event) o tr' :
  requireVertexConfig env tr = (o, tr') →
  tr' = tr
  ∧ (o = Return tt
     ∨ o = Throw (ErrorObj (lit "GOOGLE_CLOUD_PROJECT is required."))
     ∨ o = Throw (ErrorObj (lit "GOOGLE_CLOUD_LOCATION is required."))
     ∨ o = Throw (ErrorObj (lit "VERTEX_RAG_CORPUS is required."))).
Proof.
  unfold requireVertexConfig. run.
  pose proof (VERTEX_MODEL_nonempty env) as Hm.
  destruct (GOOGLE_CLOUD_PROJECT env), (GOOGLE_CLOUD_LOCATION env),
    (VERTEX_MODEL env), (VERTEX_RAG_CORPUS env);
    try done; intros [= <- <-]; auto.
Qed.

Lemma getAccessToken_inv (w : World) (tr : list event) o tr' :
  getAccessToken w tr = (o, tr') →
  tr' = tr ++ [CallAccessToken]
  ∧ match credentials w (length (filter (fun e => isTokenCall e = true) tr)) with
    | AuthThrows e => o = Throw e
    | AuthToken (Some (c :: s)) => o = Return (c :: s)
    | AuthToken _ =>
        o = Throw (ErrorObj (lit
              "Could not obtain Google access token. Run 'gcloud auth application-default login'."))
    end.
Proof.
  unfold getAccessToken. run.
  destruct (credentials w _) as [e|[[|c s]|]]; by intros [= <- <-].
Qed.

(** [retrieveFromVertexCorpus], step by step. *)
Lemma retrieve_steps (w : World) q k (tr : list event) :
  retrieveFromVertexCorpus w q k tr =
  match requireVertexConfig (processEnv w) tr with
  | (Throw e, _) => (Throw e, tr)
  | (Return _, _) =>
      match getAccessToken w tr with
      | (Throw e, tr1) => (Throw e, tr1)
      | (Return tok, tr1) =>
          let rq := retrieveRequest (processEnv w) tok q k in
          (match retrieveContexts w rq with
           | FetchRejects e => Throw e
           | FetchResponse resp =>
               if ok resp then
                 match bodyJson resp with
                 | Return p => Return (contextsOfPayload p)
                 | Throw e => Throw e
                 end
               else Throw (ErrorObj (lit "Vertex retrieveContexts failed: "
                                     ++ decimal (status resp) ++ lit " "
                                     ++ bodyText resp))
           end, tr1 ++ [CallRetrieve rq])
      end
  end.
Proof.
  unfold retrieveFromVertexCorpus. run.
  destruct (requireVertexConfig_trace (processEnv w) tr) as [o1 ->].
  destruct o1 as [[]|e]; [|done].
  destruct (getAccessToken w tr) as [[tok|e] tr1]; [|done].
  cbv zeta. destruct (retrieveContexts w _) as [e|resp]; [done|].
  destruct (ok resp); simpl; [|done]. by destruct (bodyJson resp).
Qed.

Lemma generate_steps (w : World) m h pc (tr : list event) :
  generateWithVertex w m h pc tr =
  match requireVertexConfig (processEnv w) tr with
  | (Throw e, _) => (Throw e, tr)
  | (Return _, _) =>
      match getAccessToken w tr with
      | (Throw e, tr1) => (Throw e, tr1)
      | (Return tok, tr1) =>
          let rq := generateRequest (processEnv w) tok m h pc in
          (match generateContent w rq with
           | FetchRejects e => Throw e
           | FetchResponse resp =>
               if ok resp then
                 match bodyJson resp with
                 | Return p => Return (or_else (candidateText p) NO_ANSWER)
                 | Throw e => Throw e
                 end
               else Throw (ErrorObj (lit "Vertex generateContent failed: "
                                     ++ decimal (status resp) ++ lit " "
                                     ++ bodyText resp))
           end, tr1 ++ [CallGenerate rq])
      end
  end.
Proof.
  unfold generateWithVertex. run.
  destruct (requireVertexConfig_trace (processEnv w) tr) as [o1 ->].
  destruct o1 as [[]|e]; [|done].
  destruct (getAccessToken w tr) as [[tok|e] tr1]; [|done].
  cbv zeta. destruct (generateContent w _) as [e|resp]; [done|].
  destruct (ok resp); simpl; [|done]. by destruct (bodyJson resp).
Qed.

(** The route, step by step. *)
Lemma chat_steps (w : World) (body : ChatBody) :
  handleChat w body =
  match trim (default [] (message body)) with
  | [] => (Return (res_status_json 400%N (ErrorBody (lit "message is required"))), [])
  | msg =>
      match retrieveFromVertexCorpus w msg (VERTEX_RAG_TOP_K (processEnv w)) [] with
      | (Throw e, tr1) =>
          (Return (res_status_json 500%N (ErrorBody (errorMessage e))), tr1)
      | (Return [], tr1) => (Return (res_json (ChatOk NO_CONTEXT [])), tr1)
      | (Return contexts, tr1) =>
          match generateWithVertex w msg (historyOf body)
                  (join blankLine (imap chunkLine contexts)) tr1 with
          | (Return answer, tr2) =>
              (Return (res_json (ChatOk answer (sourcesOf contexts))), tr2)
          | (Throw e, tr2) =>
              (Return (res_status_json 500%N (ErrorBody (errorMessage e))), tr2)
          end
      end
  end.
Proof.
  unfold handleChat, chatRoute. run. cbv zeta.
  destruct (trim (default [] (message body))) as [|c msg]; [done|].
  destruct (retrieveFromVertexCorpus w (c :: msg) _ []) as [[[|x cs]|e] tr1];
    [done| |done].
  simpl. by destruct (generateWithVertex w (c :: msg) _ _ tr1) as [[a|e] tr2].
Qed.

(** X1. The route always answers, and with one of three shapes: 400 with the
    fixed validation message (exactly when the message is blank), 500 with an
    error text, or 200 with an answer and sources. *)
Theorem route_status_cases (w : World) (body : ChatBody) :
  ∃ r tr,
    handleChat w body = (Return r, tr)
    ∧ ((res_status r = 400%N
        ∧ res_body r = ErrorBody (lit "message is required")
        ∧ trim (default [] (message body)) = [])
       ∨ (res_status r = 500%N
          ∧ (∃ e, res_body r = ErrorBody e)
          ∧ trim (default [] (message body)) ≠ [])
       ∨ (res_status r = 200%N
          ∧ (∃ a s, res_body r = ChatOk a s)
          ∧ trim (default [] (message body)) ≠ [])).
Proof.
  rewrite chat_steps.
  destruct (trim (default [] (message body))) as [|c msg]; [by eexists _, _; eauto|].
  cbv zeta.
  destruct (retrieveFromVertexCorpus w (c :: msg) _ []) as [[[|x cs]|e] tr1].
  - eexists _, _. split; [done|]. right. right. simpl. eauto.
  - destruct (generateWithVertex w (c :: msg) _ _ tr1) as [[a|e] tr2];
      eexists _, _; (split; [done|]); right; [right|left]; simpl; eauto.
  - eexists _, _. split; [done|]. right. left. simpl. eauto.
Qed.

(** X2. The outbound calls of one request are an initial part of: token,
    retrieveContexts, token, generateContent. So there is at most one call
    of each endpoint, each right after a token acquisition, and generation
    never precedes retrieval. *)
Theorem call_discipline (w : World) (body : ChatBody)
    (r : outcome HttpResponse) (tr : list event) :
  handleChat w body = (r, tr) →
  tr = [] ∨ tr = [CallAccessToken]
  ∨ ∃ rq, tr = [CallAccessToken; CallRetrieve rq]
          ∨ tr = [CallAccessToken; CallRetrieve rq; CallAccessToken]
          ∨ ∃ rq', tr = [CallAccessToken; CallRetrieve rq;
                         CallAccessToken; CallGenerate rq'].
Proof.
  intros Hc. apply chat_inv in Hc. cbv zeta in Hc.
  destruct Hc as [(_ & -> & _)|(_ & o1 & tr1 & Hr & Hcase)]; [by left|].
  apply retrieve_inv in Hr. simpl in Hr.
  destruct Hr as [(-> & e & ->)|[(-> & e & ->)|(tok & -> & _)]].
  - destruct Hcase as [-> _]. by left.
  - destruct Hcase as [-> _]. right. by left.
  - right. right. eexists.
    destruct o1 as [[|c cs]|e].
    + destruct Hcase as [-> _]. by left.
    + destruct Hcase as (o2 & Hg & _). apply generate_inv in Hg. simpl in Hg.
      destruct Hg as [(-> & _)|[(-> & _)|(tok2 & -> & _)]]; eauto.
    + destruct Hcase as [-> _]. by left.
Qed.

Lemma call_discipline_witness :
  ∃ r rq rq',
    handleChat
      (Scenario.worldOf
         (FetchResponse (Scenario.okResponse (Scenario.payloadOf Scenario.irrigation)))
         (FetchResponse (Scenario.okResponse (Scenario.answerOf [lit "Twice a week."]))))
      (Scenario.ask NotAnArray)
    = (r, [CallAccessToken; CallRetrieve rq; CallAccessToken; CallGenerate rq']).
Proof.
  set (w := Scenario.worldOf _ _).
  destruct (handleChat w (Scenario.ask NotAnArray)) as [r tr] eqn:Hc.
  assert (Hlen : length tr = 4) by (vm_compute in Hc; by injection Hc as _ <-).
  destruct (call_discipline w _ r tr Hc)
    as [->|[->|(rq & [->|[->|(rq' & ->)]])]]; try discriminate Hlen.
  by exists r, rq, rq'.
Defined.

(** X3. The configuration check passes exactly when a project is given
    (GOOGLE_CLOUD_PROJECT, or else GCLOUD_PROJECT, not blank), the location,
    if set, is not blank (unset, it defaults to us-west1), and the corpus is
    given and not blank. VERTEX_MODEL never matters: it has a default. *)
Theorem config_required_variables (env : ProcessEnv) (tr : list event) :
  requireVertexConfig env tr = (Return tt, tr)
  ↔ ((∃ s, env_GOOGLE_CLOUD_PROJECT env = Some s ∧ trim s ≠ [])
     ∨ (∃ s, env_GCLOUD_PROJECT env = Some s ∧ trim s ≠ []))
    ∧ (∀ s, env_GOOGLE_CLOUD_LOCATION env = Some s → trim s ≠ [])
    ∧ (∃ s, env_VERTEX_RAG_CORPUS env = Some s ∧ trim s ≠ []).
Proof.
  rewrite config_ok_iff.
  assert (Hp : GOOGLE_CLOUD_PROJECT env ≠ []
               ↔ (∃ s, env_GOOGLE_CLOUD_PROJECT env = Some s ∧ trim s ≠ [])
                 ∨ (∃ s, env_GCLOUD_PROJECT env = Some s ∧ trim s ≠ [])).
  { rewrite <- !or_else_trim_nonempty. unfold GOOGLE_CLOUD_PROJECT.
    destruct (trim <$> env_GOOGLE_CLOUD_PROJECT env) as [[|c s]|]; simpl;
      intuition congruence. }
  assert (Hl : GOOGLE_CLOUD_LOCATION env ≠ []
               ↔ ∀ s, env_GOOGLE_CLOUD_LOCATION env = Some s → trim s ≠ []).
  { unfold GOOGLE_CLOUD_LOCATION.
    destruct (env_GOOGLE_CLOUD_LOCATION env) as [s|]; simpl.
    - split; [by intros H s' [= <-]|]. intros H. by apply H.
    - split; [done|]. intros _. vm_compute. discriminate. }
  rewrite Hp, Hl. unfold VERTEX_RAG_CORPUS. by rewrite or_else_trim_nonempty.
Qed.

(** X4. With a non-blank message and a configuration that does not pass the
    check, the route answers 500 with one of three messages (project,
    location, corpus; never the model) and makes no outbound call at all, not
    even for a token. *)
Theorem config_checked_before_calls (w : World) (body : ChatBody) :
  trim (default [] (message body)) ≠ [] →
  requireVertexConfig (processEnv w) [] ≠ (Return tt, []) →
  ∃ e,
    handleChat w body
    = (Return {| res_status := 500%N; res_body := ErrorBody e |}, [])
    ∧ (e = lit "GOOGLE_CLOUD_PROJECT is required."
       ∨ e = lit "GOOGLE_CLOUD_LOCATION is required."
       ∨ e = lit "VERTEX_RAG_CORPUS is required.").
Proof.
  intros Hmsg Hcfg. rewrite chat_steps.
  destruct (trim (default [] (message body))) as [|c msg]; [done|].
  cbv zeta. rewrite retrieve_steps.
  destruct (requireVertexConfig (processEnv w) []) as [o tr] eqn:E.
  destruct (config_error_cases _ _ _ _ E) as [-> [-> | [-> | [-> | ->]]]];
    [done|(eexists; split; [reflexivity|]; auto)..].
Qed.

Lemma config_checked_before_calls_witness :
  ∃ e,
    handleChat
      {| processEnv :=
           {| env_GOOGLE_CLOUD_PROJECT := Some (lit "farmersmark-agriculture");
              env_GCLOUD_PROJECT := None;
              env_GOOGLE_CLOUD_LOCATION := Some (lit "  ");
              env_VERTEX_MODEL := None;
              env_VERTEX_RAG_CORPUS := None;
              env_VERTEX_RAG_TOP_K := None |};
         credentials := fun _ => AuthToken (Some (lit "ya29.token"));
         retrieveContexts := fun _ => FetchRejects NotAnError;
         generateContent := fun _ => FetchRejects NotAnError |}
      (Scenario.ask NotAnArray)
    = (Return {| res_status := 500%N; res_body := ErrorBody e |}, [])
    ∧ e = lit "GOOGLE_CLOUD_LOCATION is required.".
Proof.
  match goal with |- ∃ e, handleChat ?w ?b = _ ∧ _ =>
    destruct (config_checked_before_calls w b) as (e & Hc & He)
  end.
  - vm_compute. discriminate.
  - vm_compute. discriminate.
  - exists e. split; [exact Hc|].
    vm_compute in Hc. by injection Hc as <-.
Defined.

(** X5. When the configuration passes but the credential client yields no
    token (or an empty one), the route answers 500 with the fixed
    credential message; when the client throws, with what it threw. In both
    cases the token request is the only call: nothing is fetched. *)
Theorem no_fetch_without_token (w : World) (body : ChatBody) :
  trim (default [] (message body)) ≠ [] →
  requireVertexConfig (processEnv w) [] = (Return tt, []) →
  ((credentials w 0 = AuthToken None ∨ credentials w 0 = AuthToken (Some [])) →
   handleChat w body
   = (Return {| res_status := 500%N;
                res_body := ErrorBody (lit "Could not obtain Google access token. Run 'gcloud auth application-default login'.") |},
      [CallAccessToken]))
  ∧ (∀ e, credentials w 0 = AuthThrows e →
       handleChat w body
       = (Return {| res_status := 500%N; res_body := ErrorBody (errorMessage e) |},
          [CallAccessToken])).
Proof.
  intros Hmsg Hcfg. rewrite chat_steps.
  destruct (trim (default [] (message body))) as [|c msg]; [done|].
  cbv zeta. rewrite retrieve_steps, Hcfg.
  destruct (getAccessToken w []) as [o tr] eqn:E.
  apply getAccessToken_inv in E as [-> E]. simpl in E.
  split.
  - intros [H|H]; rewrite H in E; by subst o.
  - intros e H. rewrite H in E. by subst o.
Qed.

Lemma no_fetch_without_token_witness :
  handleChat
    {| processEnv := Scenario.envReadme;
       credentials := fun _ => AuthToken None;
       retrieveContexts := fun _ => FetchRejects NotAnError;
       generateContent := fun _ => FetchRejects NotAnError |}
    (Scenario.ask NotAnArray)
  = (Return {| res_status := 500%N;
               res_body := ErrorBody (lit "Could not obtain Google access token. Run 'gcloud auth application-default login'.") |},
     [CallAccessToken]).
Proof.
  match goal with |- handleChat ?w ?b = _ =>
    apply (proj1 (no_fetch_without_token w b
                    ltac:(vm_compute; discriminate) ltac:(vm_compute; reflexivity)))
  end.
  by left.
Defined.

Lemma contextsOfPayload_clean (payload : RetrievePayload) :
  Forall (fun c => text c ≠ [] ∧ trim (text c) = text c
                   ∧ trim (sourceUri c) = sourceUri c)
    (contextsOfPayload payload).
Proof.
  unfold contextsOfPayload. apply Forall_forall. intros c Hc.
  apply list_elem_of_filter in Hc as [Htext Hc].
  apply list_elem_of_fmap in Hc as (it & -> & _).
  split; [|split].
  - unfold hasText in Htext. apply Nat.ltb_lt in Htext.
    intros E. rewrite E in Htext. simpl in Htext. lia.
  - unfold toContext. simpl. destruct (item_text it); simpl; [apply trim_idemp|done].
  - unfold toContext. simpl.
    destruct (item_sourceUri it); simpl; [apply trim_idemp|reflexivity].
Qed.

(** X6. Whatever the endpoint sends, a context returned by
    [retrieveFromVertexCorpus] has a non-empty text without white space at
    either end, and a source URI without white space at either end; and no
    more contexts are returned than the payload had items. *)
Theorem retrieved_contexts_clean (w : World) q k (tr tr' : list event)
    (contexts : list RetrievedContext) :
  retrieveFromVertexCorpus w q k tr = (Return contexts, tr') →
  Forall (fun c => text c ≠ [] ∧ trim (text c) = text c
                   ∧ trim (sourceUri c) = sourceUri c) contexts
  ∧ ∃ rq resp payload,
      retrieveContexts w rq = FetchResponse resp
      ∧ bodyJson resp = Return payload
      ∧ length contexts ≤ length (payloadItems payload).
Proof.
  intros H. apply retrieve_inv in H.
  destruct H as [(_ & e & [=])|[(_ & e & [=])|(tok & _ & H)]].
  cbv zeta in H.
  destruct (retrieveContexts w _) as [e|resp] eqn:Hw; [done|].
  destruct (ok resp); [|done].
  destruct (bodyJson resp) as [payload|e] eqn:Hj; [|done].
  injection H as ->. split.
  - apply contextsOfPayload_clean.
  - eexists _, resp, payload. split; [exact Hw|]. split; [exact Hj|].
    unfold contextsOfPayload.
    etrans; [apply length_filter|]. by rewrite length_fmap.
Qed.

Lemma retrieved_contexts_clean_witness :
  ∃ contexts tr',
    retrieveFromVertexCorpus
      (Scenario.worldOf
         (FetchResponse (Scenario.okResponse (Scenario.payloadOf Scenario.mixedSources)))
         (FetchRejects NotAnError))
      Scenario.question (ofZ 4) [] = (Return contexts, tr')
    ∧ length contexts = 4
    ∧ Forall (fun c => text c ≠ [] ∧ trim (text c) = text c
                       ∧ trim (sourceUri c) = sourceUri c) contexts.
Proof.
  set (w := Scenario.worldOf _ _).
  destruct (retrieveFromVertexCorpus w Scenario.question (ofZ 4) [])
    as [o tr'] eqn:Hr.
  assert (Ho : ∃ contexts, o = Return contexts ∧ length contexts = 4).
  { vm_compute in Hr. injection Hr as <- _. eexists. split; reflexivity. }
  destruct Ho as (contexts & -> & Hlen).
  exists contexts, tr'. split; [reflexivity|]. split; [exact Hlen|].
  exact (proj1 (retrieved_contexts_clean w _ _ _ _ _ Hr)).
Defined.

(** X7. A [generateContent] call is only made when retrieval returned at
    least one context, and its system instruction is the fixed instruction,
    a heading, and the retrieved texts numbered "[Chunk i]", in order,
    separated by blank lines; the temperature is 0.2. *)
Theorem generation_is_grounded (w : World) (body : ChatBody)
    (r : outcome HttpResponse) (tr : list event) (rq : GenerateRequest) :
  handleChat w body = (r, tr) →
  CallGenerate rq ∈ tr →
  ∃ contexts tr1,
    retrieveFromVertexCorpus w (trim (default [] (message body)))
      (VERTEX_RAG_TOP_K (processEnv w)) [] = (Return contexts, tr1)
    ∧ contexts ≠ []
    ∧ gq_systemInstruction rq
      = lit "You are a RAG assistant. Answer using the provided context. If context is insufficient, say what is missing."
        ++ [10; 10]%N ++ lit "Context from the Vertex RAG corpus:" ++ [10]%N
        ++ join [10; 10]%N
             (imap (fun i c => lit "[Chunk " ++ decimal (N.of_nat (i + 1))
                               ++ lit "] " ++ text c) contexts)
    ∧ gq_temperature rq = (2 # 10)%Q.
Proof.
  intros Hc Hin. apply chat_inv in Hc. cbv zeta in Hc.
  destruct Hc as [(_ & -> & _)|(_ & o1 & tr1 & Hr & Hcase)]; [member_cases Hin|].
  pose proof (retrieve_no_generate _ _ _ _ _ Hr) as Hno.
  assert (Hnot : CallGenerate rq ∉ tr1).
  { intros Hin1. rewrite Forall_forall in Hno. by specialize (Hno _ Hin1). }
  destruct o1 as [[|c cs]|e]; [by destruct Hcase as [-> _]| |by destruct Hcase as [-> _]].
  destruct Hcase as (o2 & Hg & _).
  exists (c :: cs), tr1. split; [exact Hr|]. split; [done|].
  apply generate_inv in Hg.
  destruct Hg as [(-> & _)|[(-> & _)|(tok & -> & _)]]; [done| |];
    apply elem_of_app in Hin as [Hin|Hin]; try done; member_cases Hin.
  split; reflexivity.
Qed.

Lemma generation_is_grounded_witness :
  ∃ r tr rq,
    handleChat
      (Scenario.worldOf
         (FetchResponse (Scenario.okResponse (Scenario.payloadOf Scenario.irrigation)))
         (FetchResponse (Scenario.okResponse (Scenario.answerOf [lit "Twice a week."]))))
      (Scenario.ask NotAnArray) = (r, tr)
    ∧ CallGenerate rq ∈ tr
    ∧ gq_systemInstruction rq
      = lit "You are a RAG assistant. Answer using the provided context. If context is insufficient, say what is missing."
        ++ [10; 10]%N ++ lit "Context from the Vertex RAG corpus:" ++ [10]%N
        ++ lit "[Chunk 1] Irrigate twice weekly...".
Proof.
  set (w := Scenario.worldOf _ _).
  destruct (handleChat w (Scenario.ask NotAnArray)) as [r tr] eqn:Hc.
  assert (Htr : ∃ rq, tr !! 3 = Some (CallGenerate rq)).
  { vm_compute in Hc. injection Hc as _ <-. eexists. reflexivity. }
  destruct Htr as [rq Htr].
  assert (Hin : CallGenerate rq ∈ tr) by (eapply list_elem_of_lookup_2; exact Htr).
  destruct (generation_is_grounded w _ r tr rq Hc Hin)
    as (contexts & tr1 & Hr & _ & Hsys & _).
  exists r, tr, rq. split; [reflexivity|]. split; [exact Hin|].
  rewrite Hsys. vm_compute in Hr. injection Hr as <- _. reflexivity.
Defined.

(** X8. Each endpoint call carries "Bearer " followed by a non-empty token
    that the credential client returned for that call: the first token for
    retrieval, a second, freshly requested one for generation. *)
Theorem calls_are_authorized (w : World) (body : ChatBody)
    (r : outcome HttpResponse) (tr : list event) :
  handleChat w body = (r, tr) →
  (∀ rq, CallRetrieve rq ∈ tr →
     ∃ tok, tok ≠ [] ∧ credentials w 0 = AuthToken (Some tok)
            ∧ rq_authorization rq = lit "Bearer " ++ tok)
  ∧ (∀ rq, CallGenerate rq ∈ tr →
       ∃ tok, tok ≠ [] ∧ credentials w 1 = AuthToken (Some tok)
              ∧ gq_authorization rq = lit "Bearer " ++ tok).
Proof.
  rewrite chat_steps.
  destruct (trim (default [] (message body))) as [|c msg];
    [intros [= <- <-]; split; intros rq Hin; member_cases Hin|].
  cbv zeta. rewrite retrieve_steps.
  destruct (requireVertexConfig_trace (processEnv w) []) as [o0 ->].
  destruct o0 as [[]|e];
    [|intros [= <- <-]; split; intros rq Hin; member_cases Hin].
  destruct (getAccessToken w []) as [o1 tr1] eqn:E1.
  apply getAccessToken_inv in E1 as [-> E1]. simpl in E1.
  destruct o1 as [tok|e];
    [|intros [= <- <-]; split; intros rq Hin; member_cases Hin].
  assert (Htok : tok ≠ [] ∧ credentials w 0 = AuthToken (Some tok)).
  { destruct (credentials w 0) as [e|[[|c' s]|]]; try done.
    injection E1 as ->. done. }
  cbv zeta. simpl.
  set (rq0 := retrieveRequest _ _ _ _).
  set (o := match retrieveContexts w rq0 with
            | FetchRejects e => Throw e
            | FetchResponse resp => _
            end).
  destruct o as [[|x cs]|e];
    try (intros [= <- <-]; split; intros rq Hin; member_cases Hin;
         exists tok; by destruct Htok).
  rewrite generate_steps.
  destruct (requireVertexConfig_trace (processEnv w)
              [CallAccessToken; CallRetrieve rq0]) as [o2 ->].
  destruct o2 as [[]|e];
    [|intros [= <- <-]; split; intros rq Hin; member_cases Hin;
      exists tok; by destruct Htok].
  destruct (getAccessToken w [CallAccessToken; CallRetrieve rq0])
    as [o3 tr3] eqn:E3.
  apply getAccessToken_inv in E3 as [-> E3]. simpl in E3.
  destruct o3 as [tok2|e];
    [|intros [= <- <-]; split; intros rq Hin; member_cases Hin;
      exists tok; by destruct Htok].
  assert (Htok2 : tok2 ≠ [] ∧ credentials w 1 = AuthToken (Some tok2)).
  { destruct (credentials w 1) as [e|[[|c' s]|]]; try done.
    injection E3 as ->. done. }
  cbv zeta. simpl.
  intros Hc.
  assert (tr = [CallAccessToken; CallRetrieve rq0; CallAccessToken;
                CallGenerate (generateRequest (processEnv w) tok2 (c :: msg)
                  (historyOf body) (join blankLine (imap chunkLine (x :: cs))))])
    as ->.
  { destruct (generateContent w _) as [e|resp]; [by injection Hc|].
    destruct (ok resp); [|by injection Hc].
    destruct (bodyJson resp); by injection Hc. }
  split; intros rq Hin; member_cases Hin.
  - exists tok. by destruct Htok.
  - exists tok2. by destruct Htok2.
Qed.

Lemma calls_are_authorized_witness :
  ∃ r tr rq rq',
    handleChat
      (Scenario.worldOf
         (FetchResponse (Scenario.okResponse (Scenario.payloadOf Scenario.irrigation)))
         (FetchResponse (Scenario.okResponse (Scenario.answerOf [lit "Twice a week."]))))
      (Scenario.ask NotAnArray) = (r, tr)
    ∧ CallRetrieve rq ∈ tr ∧ CallGenerate rq' ∈ tr
    ∧ rq_authorization rq = lit "Bearer ya29.token"
    ∧ gq_authorization rq' = lit "Bearer ya29.token".
Proof.
  set (w := Scenario.worldOf _ _).
  destruct (handleChat w (Scenario.ask NotAnArray)) as [r tr] eqn:Hc.
  assert (Htr : ∃ rq rq', tr !! 1 = Some (CallRetrieve rq)
                          ∧ tr !! 3 = Some (CallGenerate rq')).
  { vm_compute in Hc. injection Hc as _ <-. eexists _, _. split; reflexivity. }
  destruct Htr as (rq & rq' & H1 & H3).
  assert (Hin1 : CallRetrieve rq ∈ tr) by (eapply list_elem_of_lookup_2; exact H1).
  assert (Hin3 : CallGenerate rq' ∈ tr) by (eapply list_elem_of_lookup_2; exact H3).
  destruct (calls_are_authorized w _ r tr Hc) as [Hr Hg].
  destruct (Hr rq Hin1) as (tok & _ & Hcred & Ha).
  destruct (Hg rq' Hin3) as (tok' & _ & Hcred' & Ha').
  injection Hcred as <-. injection Hcred' as <-.
  exists r, tr, rq, rq'. repeat split; assumption.
Defined.

(** A [generateContent] call of a request is built from the trimmed message,
    the truncated history and the chunk listing of the retrieved contexts. *)
Lemma chat_generate_request (w : World) (body : ChatBody)
    (r : outcome HttpResponse) (tr : list event) (rq : GenerateRequest) :
  handleChat w body = (r, tr) →
  CallGenerate rq ∈ tr →
  ∃ tok contexts,
    rq = generateRequest (processEnv w) tok (trim (default [] (message body)))
           (historyOf body) (join blankLine (imap chunkLine contexts)).
Proof.
  intros Hc Hin. apply chat_inv in Hc. cbv zeta in Hc.
  destruct Hc as [(_ & -> & _)|(_ & o1 & tr1 & Hr & Hcase)]; [member_cases Hin|].
  pose proof (retrieve_no_generate _ _ _ _ _ Hr) as Hno.
  assert (Hnot : CallGenerate rq ∉ tr1).
  { intros Hin1. rewrite Forall_forall in Hno. by specialize (Hno _ Hin1). }
  destruct o1 as [[|c cs]|e]; [by destruct Hcase as [-> _]| |by destruct Hcase as [-> _]].
  destruct Hcase as (o2 & Hg & _).
  apply generate_inv in Hg.
  destruct Hg as [(-> & _)|[(-> & _)|(tok & -> & _)]]; [done| |];
    apply elem_of_app in Hin as [Hin|Hin]; try done; member_cases Hin.
  by exists tok, (c :: cs).
Qed.

(** X9. Only the last 8 turns of the history count: putting any older turns
    in front of a history of at least 8 turns changes neither the response
    nor the calls made. *)
Theorem older_turns_ignored (w : World) (m : option jsstring)
    (older recent : list Turn) :
  8 ≤ length recent →
  handleChat w {| message := m; history := AnArray (older ++ recent) |}
  = handleChat w {| message := m; history := AnArray recent |}.
Proof.
  intros Hlen. rewrite !chat_steps.
  assert (Hh : historyOf {| message := m; history := AnArray (older ++ recent) |}
               = historyOf {| message := m; history := AnArray recent |}).
  { unfold historyOf. simpl. change (-8)%Z with (- Z.of_nat 8)%Z.
    rewrite !slice_last, length_app.
    rewrite drop_app_ge by lia. f_equal. lia. }
  rewrite Hh. reflexivity.
Qed.

Lemma older_turns_ignored_witness :
  handleChat
    (Scenario.worldOf
       (FetchResponse (Scenario.okResponse (Scenario.payloadOf Scenario.irrigation)))
       (FetchResponse (Scenario.okResponse (Scenario.answerOf [lit "Twice a week."]))))
    (Scenario.ask (AnArray Scenario.tenTurns))
  = handleChat
      (Scenario.worldOf
         (FetchResponse (Scenario.okResponse (Scenario.payloadOf Scenario.irrigation)))
         (FetchResponse (Scenario.okResponse (Scenario.answerOf [lit "Twice a week."]))))
      (Scenario.ask (AnArray (drop 2 Scenario.tenTurns))).
Proof.
  apply (older_turns_ignored _ (Some Scenario.question)
           (take 2 Scenario.tenTurns) (drop 2 Scenario.tenTurns)).
  simpl. lia.
Defined.

(** X10. White space around the message does not count: a message and its
    trimmed form get the same response and cause the same calls. *)
Theorem message_is_trimmed (w : World) (s : jsstring) (h : HistoryField) :
  handleChat w {| message := Some s; history := h |}
  = handleChat w {| message := Some (trim s); history := h |}.
Proof.
  rewrite !chat_steps. simpl. rewrite trim_idemp. reflexivity.
Qed.

(** X11. In a [generateContent] call every entry of [contents] has the role
    "user" or "model" and exactly one part; the last entry is the current
    message with the role "user"; and the i-th entry has the role "model"
    exactly when the i-th turn of the truncated history has the role
    "assistant" (any other role string is sent as "user"). *)
Theorem vertex_roles (w : World) (body : ChatBody)
    (r : outcome HttpResponse) (tr : list event) (rq : GenerateRequest) :
  handleChat w body = (r, tr) →
  CallGenerate rq ∈ tr →
  Forall (fun c => (vc_role c = lit "user" ∨ vc_role c = lit "model")
                   ∧ length (vc_parts c) = 1) (gq_contents rq)
  ∧ last (gq_contents rq)
    = Some {| vc_role := lit "user";
              vc_parts := [trim (default [] (message body))] |}
  ∧ ∀ i t, historyOf body !! i = Some t →
      ∃ c, gq_contents rq !! i = Some c
           ∧ vc_parts c = [content t]
           ∧ (vc_role c = lit "model" ↔ role t = lit "assistant").
Proof.
  intros Hc Hin.
  destruct (chat_generate_request _ _ _ _ _ Hc Hin) as (tok & contexts & ->).
  simpl. split; [|split].
  - apply Forall_app. split.
    + apply Forall_fmap, Forall_forall. intros t _. simpl.
      split; [|done]. case_bool_decide; auto.
    + repeat constructor.
  - by rewrite last_snoc.
  - intros i t Hi. exists (vertexTurn t). split; [|split; [done|]].
    + rewrite lookup_app_l by (rewrite length_fmap; by eapply lookup_lt_Some).
      by rewrite list_lookup_fmap, Hi.
    + simpl. case_bool_decide; [done|]. split; [|done]. vm_compute. discriminate.
Qed.

Lemma vertex_roles_witness :
  ∃ r tr rq,
    handleChat
      (Scenario.worldOf
         (FetchResponse (Scenario.okResponse (Scenario.payloadOf Scenario.irrigation)))
         (FetchResponse (Scenario.okResponse (Scenario.answerOf [lit "Twice a week."]))))
      (Scenario.ask (AnArray Scenario.tenTurns)) = (r, tr)
    ∧ CallGenerate rq ∈ tr
    ∧ vc_role <$> gq_contents rq
      = [lit "user"; lit "model"; lit "user"; lit "model"; lit "user";
         lit "model"; lit "user"; lit "model"; lit "user"]
    ∧ Forall (fun c => (vc_role c = lit "user" ∨ vc_role c = lit "model")
                       ∧ length (vc_parts c) = 1) (gq_contents rq).
Proof.
  set (w := Scenario.worldOf _ _).
  destruct (handleChat w (Scenario.ask (AnArray Scenario.tenTurns)))
    as [r tr] eqn:Hc.
  assert (Htr : ∃ rq, tr !! 3 = Some (CallGenerate rq)
                      ∧ vc_role <$> gq_contents rq
                        = [lit "user"; lit "model"; lit "user"; lit "model";
                           lit "user"; lit "model"; lit "user"; lit "model";
                           lit "user"]).
  { vm_compute in Hc. injection Hc as _ <-. eexists. split; reflexivity. }
  destruct Htr as (rq & Htr & Hroles).
  assert (Hin : CallGenerate rq ∈ tr) by (eapply list_elem_of_lookup_2; exact Htr).
  exists r, tr, rq. split; [reflexivity|]. split; [exact Hin|].
  split; [exact Hroles|].
  exact (proj1 (vertex_roles w _ r tr rq Hc Hin)).
Defined.

(** X12. A 200 response has no sources exactly when no [generateContent]
    call was made, and then its answer is the fixed no-context message: an
    answer that came from the model always cites at least one source. *)
Theorem sources_empty_iff_fallback (w : World) (body : ChatBody)
    (answer : jsstring) (sources : list jsstring) (tr : list event) :
  handleChat w body
  = (Return {| res_status := 200%N; res_body := ChatOk answer sources |}, tr) →
  (sources = [] ↔ Forall (fun e => isGenerateCall e = false) tr)
  ∧ (sources = [] →
     answer = lit "I could not retrieve relevant context from the configured Vertex corpus. Try rephrasing your question.").
Proof.
  intros Hc. apply chat_inv in Hc. cbv zeta in Hc.
  destruct Hc as [(_ & _ & [=])|(_ & o1 & tr1 & Hr & Hcase)].
  pose proof (retrieve_no_generate _ _ _ _ _ Hr) as Hno.
  destruct o1 as [[|c cs]|e].
  - destruct Hcase as [-> [= -> ->]]. done.
  - destruct Hcase as (o2 & Hg & Hres).
    destruct o2 as [a|e]; injection Hres as ?; [|done]. subst.
    assert (Hne : sourcesOf (c :: cs) ≠ []).
    { intros E. assert (Hin : sourceUri c ∈ sourcesOf (c :: cs)).
      { unfold sourcesOf, Array_from. apply Set_new_elem. simpl. left. }
      rewrite E in Hin. by apply elem_of_nil in Hin. }
    apply generate_inv in Hg.
    destruct Hg as [(_ & ? & [=])|[(_ & ? & [=])|(tok & -> & _)]].
    split; [|done]. split; [done|].
    intros Hall. apply Forall_app in Hall as [_ Hall].
    apply Forall_cons in Hall as [_ Hall].
    apply Forall_cons in Hall as [Habs _]. discriminate Habs.
  - by destruct Hcase as [_ [=]].
Qed.

Lemma sources_empty_iff_fallback_witness :
  ∃ answer tr,
    handleChat
      (Scenario.worldOf
         (FetchResponse (Scenario.okResponse (Scenario.payloadOf [])))
         (FetchRejects NotAnError))
      (Scenario.ask NotAnArray)
    = (Return {| res_status := 200%N; res_body := ChatOk answer [] |}, tr)
    ∧ Forall (fun e => isGenerateCall e = false) tr.
Proof.
  set (w := Scenario.worldOf _ _).
  pose proof (sources_empty_iff_fallback w (Scenario.ask NotAnArray)) as H.
  destruct (handleChat w (Scenario.ask NotAnArray)) as [r tr] eqn:Hc.
  vm_compute in Hc. injection Hc as <- <-.
  eexists _, _. split; [reflexivity|].
  destruct (H _ _ _ eq_refl) as [Hiff _]. by apply Hiff.
Defined.

(** X13. What [/api/health] reports tells whether [/api/chat] is configured:
    the configuration check passes exactly when the reported project and
    corpus are not null and the reported location is not empty; the reported
    model always names a model; and the reported top-K is the one every
    [retrieveContexts] call carries. *)
Theorem health_reflects_config (env : ProcessEnv) :
  (∀ tr, requireVertexConfig env tr = (Return tt, tr)
         ↔ h_project (healthRoute env) ≠ None
           ∧ h_location (healthRoute env) ≠ []
           ∧ h_corpus (healthRoute env) ≠ None)
  ∧ (∃ model, model ≠ [] ∧ h_model (healthRoute env) = lit "vertex:" ++ model)
  ∧ (∀ w body r tr rq,
       processEnv w = env →
       handleChat w body = (r, tr) →
       CallRetrieve rq ∈ tr →
       rq_topK rq = h_topK (healthRoute env)).
Proof.
  split; [|split].
  - intros tr. rewrite config_ok_iff. simpl. unfold orNull.
    destruct (GOOGLE_CLOUD_PROJECT env), (VERTEX_RAG_CORPUS env);
      intuition congruence.
  - exists (VERTEX_MODEL env). split; [apply VERTEX_MODEL_nonempty|done].
  - intros w body r tr rq <- Hc Hin.
    by destruct (chat_retrieve_request _ _ _ _ _ Hc Hin) as [tok ->].
Qed.

Lemma health_reflects_config_witness :
  requireVertexConfig Scenario.envReadme [] = (Return tt, [])
  ∧ h_project (healthRoute Scenario.envReadme) = Some (lit "farmersmark-agriculture")
  ∧ h_topK (healthRoute Scenario.envReadme) = ofZ 4.
Proof.
  split; [|split; reflexivity].
  apply (proj1 (health_reflects_config Scenario.envReadme)).
  repeat split; vm_compute; discriminate.
Defined.

(** X14. Every string of a 200 response is trimmed: the answer has no white
    space at either end (the model text is trimmed, the two fixed answers
    have none), and neither has any of the sources. *)
Theorem response_strings_trimmed (w : World) (body : ChatBody)
    (answer : jsstring) (sources : list jsstring) (tr : list event) :
  handleChat w body
  = (Return {| res_status := 200%N; res_body := ChatOk answer sources |}, tr) →
  trim answer = answer ∧ Forall (fun u => trim u = u) sources.
Proof.
  intros Hc. apply chat_inv in Hc. cbv zeta in Hc.
  destruct Hc as [(_ & _ & [=])|(_ & o1 & tr1 & Hr & Hcase)].
  destruct o1 as [[|c cs]|e].
  - destruct Hcase as [_ [= -> ->]]. split; [vm_compute; reflexivity|constructor].
  - destruct Hcase as (o2 & Hg & Hres).
    destruct o2 as [a|e]; injection Hres as ?; [|done]. subst. split.
    + apply generate_inv in Hg.
      destruct Hg as [(_ & ? & [=])|[(_ & ? & [=])|(tok & _ & Hresp)]].
      cbv zeta in Hresp.
      destruct (generateContent w _) as [|resp]; [done|].
      destruct (ok resp); [|done].
      destruct (bodyJson resp) as [payload|]; [|done].
      injection Hresp as ->.
      unfold candidateText.
      destruct (candidates payload) as [[|cand ?]|]; simpl; try reflexivity.
      destruct (cand_content cand) as [ct|]; simpl; try reflexivity.
      destruct (parts ct) as [ps|]; simpl; try reflexivity.
      destruct (trim (join [] _)) as [|c' s'] eqn:E; [reflexivity|].
      simpl. rewrite <- E. apply trim_idemp.
    + apply retrieve_inv in Hr.
      destruct Hr as [(_ & ? & [=])|[(_ & ? & [=])|(tok & _ & Hresp)]].
      cbv zeta in Hresp.
      destruct (retrieveContexts w _) as [|resp]; [done|].
      destruct (ok resp); [|done].
      destruct (bodyJson resp) as [payload|]; [|done].
      injection Hresp as Hcs.
      pose proof (contextsOfPayload_clean payload) as Hclean.
      rewrite <- Hcs in Hclean.
      apply Forall_forall. intros u Hu.
      unfold sourcesOf, Array_from in Hu. rewrite Set_new_elem in Hu.
      apply list_elem_of_fmap in Hu as (c' & -> & Hc').
      rewrite Forall_forall in Hclean. by destruct (Hclean _ Hc') as (_ & _ & ?).
  - by destruct Hcase as [_ [=]].
Qed.

Lemma response_strings_trimmed_witness :
  ∃ tr,
    handleChat
      (Scenario.worldOf
         (FetchResponse (Scenario.okResponse
            (Scenario.payloadOf [Scenario.item (lit " Mulch. ") (Some (lit " doc1.pdf "))])))
         (FetchResponse (Scenario.okResponse (Scenario.answerOf [lit "  Use "; lit "mulch.  "]))))
      (Scenario.ask NotAnArray)
    = (Return {| res_status := 200%N;
                 res_body := ChatOk (lit "Use mulch.") [lit "doc1.pdf"] |}, tr)
    ∧ trim (lit "Use mulch.") = lit "Use mulch.".
Proof.
  set (w := Scenario.worldOf _ _).
  pose proof (response_strings_trimmed w (Scenario.ask NotAnArray)) as H.
  destruct (handleChat w (Scenario.ask NotAnArray)) as [r tr] eqn:Hc.
  vm_compute in Hc. injection Hc as <- <-.
  eexists. split; [reflexivity|].
  exact (proj1 (H _ _ _ eq_refl)).
Defined.

End ServerExtras.

(** ** More on the chat surface *)

Section SurfaceExtras.
Import JS ChatSurface.

Lemma onSubmit_start_None (st : State) :
  onSubmit_start st = None ↔ trim (input st) = [] ∨ loading st = true.
Proof.
  unfold onSubmit_start.
  destruct (trim (input st)) as [|c s]; [by split; auto|].
  destruct (loading st); [by split; auto|].
  split; [done|]. by intros [?|?].
Qed.

Lemma onSubmit_start_Some (st st1 : State) :
  onSubmit_start st = Some st1 →
  trim (input st) ≠ [] ∧ loading st = false
  ∧ st1 = {| messages := messages st
                         ++ [ {| id := uuids st; role := user;
                                 content := trim (input st); sources := None |} ];
             input := [];
             loading := true;
             abortRef := Some {| aborted := false |};
             uuids := S (uuids st);
             pending := Some {| rq_message := trim (input st);
                                rq_history := (fun m => (role m, content m))
                                              <$> transcript st |} |}.
Proof.
  unfold onSubmit_start.
  destruct (trim (input st)) as [|c s]; [done|].
  destruct (loading st); [done|].
  by intros [= <-].
Qed.


(** X15. The composer offers what the handlers accept: in a reachable state
    Send is enabled exactly when [onSubmit] would start a submission, a
    submit while it is disabled changes nothing, and Stop is shown exactly
    while a call is in flight. *)
Theorem composer_controls (st : State) :
  reachable st →
  (sendDisabled st = false ↔ is_Some (onSubmit_start st))
  ∧ (sendDisabled st = true → ∀ st', step st Submit st' → st' = st)
  ∧ (stopVisible st = true ↔ is_Some (pending st)).
Proof.
  intros Hreach.
  assert (Hd : sendDisabled st = true ↔ onSubmit_start st = None).
  { rewrite onSubmit_start_None. unfold sendDisabled.
    destruct (loading st), (trim (input st)); simpl; intuition congruence. }
  split; [|split].
  - destruct (onSubmit_start st) eqn:E.
    + split; [by eauto|]. intros _.
      destruct (sendDisabled st); [|done]. by pose proof (proj1 Hd eq_refl).
    + split; [|by intros [? [=]]]. intros Hf.
      rewrite (proj2 Hd eq_refl) in Hf. discriminate.
  - intros Hdis st' Hstep. apply Hd in Hdis.
    inversion Hstep; subst; [congruence|done].
  - pose proof (inflight_invariant st Hreach) as Hinv. unfold stopVisible.
    destruct (pending st).
    + destruct Hinv as [-> _]. split; eauto.
    + destruct Hinv as [-> _]. split; [done|]. by intros [? [=]].
Qed.

Lemma composer_controls_witness :
  sendDisabled initial = true
  ∧ sendDisabled (onChange initial (lit "When should I irrigate?")) = false
  ∧ is_Some (onSubmit_start (onChange initial (lit "When should I irrigate?"))).
Proof.
  split; [reflexivity|]. split; [reflexivity|].
  apply (proj1 (composer_controls (onChange initial (lit "When should I irrigate?"))
                  ltac:(eapply reach_step; [apply reach_initial|apply step_change]))).
  reflexivity.
Defined.



Lemma step_appends (st : State) (a : action) (st' : State) :
  step st a st' →
  messages st `prefix_of` messages st'
  ∧ length (messages st') ≤ S (length (messages st)).
Proof.
  intros Hstep.
  destruct Hstep as [st v|st st' Hs|st Hs|st|st rq r Hpend].
  - split; [done|simpl; lia].
  - apply onSubmit_start_Some in Hs as (_ & _ & ->). cbn [messages].
    split; [by eexists|]. rewrite length_app. simpl. lia.
  - split; [done|lia].
  - unfold onStop. destruct (abortRef st); (split; [done|simpl; lia]).
  - unfold onSubmit_resume, tryBlock, catchBlock.
    destruct r as [e|status [data|e]]; [|destruct (negb _)..];
      cbn -[lit]; (split; [by eexists|]); rewrite length_app; simpl; lia.
Qed.

(** X17. The transcript is append-only: an action never removes or changes a
    message, and adds at most one, at the end; so in every reachable state
    the transcript still starts with the greeting. *)
Theorem transcript_append_only (st : State) :
  reachable st →
  messages initial `prefix_of` messages st
  ∧ ∀ a st', step st a st' →
      messages st `prefix_of` messages st'
      ∧ length (messages st') ≤ S (length (messages st)).
Proof.
  intros Hreach. split; [|intros a st'; apply step_appends].
  induction Hreach as [|st a st' Hreach IH Hstep]; [done|].
  etrans; [exact IH|]. by apply step_appends in Hstep as [? _].
Qed.

Lemma transcript_append_only_witness :
  ∃ st1,
    onSubmit_start (onChange initial (lit "When should I irrigate?")) = Some st1
    ∧ messages initial `prefix_of` messages st1.
Proof.
  destruct (onSubmit_start (onChange initial (lit "When should I irrigate?")))
    as [st1|] eqn:Hs; [|vm_compute in Hs; discriminate].
  exists st1. split; [reflexivity|].
  apply transcript_append_only.
  eapply reach_step; [|apply step_submit; exact Hs].
  eapply reach_step; [apply reach_initial|apply step_change].
Defined.

(** X18. The history a submission sends is taken from the transcript before
    the new user message: it never holds the greeting (an assistant message
    with the greeting text, wherever it stands), it holds every other
    message, and the message sent is the trimmed input. *)
Theorem history_sent (st st1 : State) (rq : ChatRequest) :
  onSubmit_start st = Some st1 →
  pending st1 = Some rq →
  rq_message rq = trim (input st)
  ∧ ((assistant, starter) ∉ rq_history rq)
  ∧ (∀ m, m ∈ messages st → ((role m, content m) ≠ (assistant, starter)) →
          (role m, content m) ∈ rq_history rq)
  ∧ length (rq_history rq) ≤ length (messages st).
Proof.
  intros Hs Hp.
  apply onSubmit_start_Some in Hs as (_ & _ & ->). simpl in Hp.
  injection Hp as <-. simpl.
  split; [done|]. split; [|split].
  - intros Hin. apply list_elem_of_fmap in Hin as (m & Hm & Hin).
    apply list_elem_of_filter in Hin as [Hph _].
    unfold isPlaceholder in Hph. injection Hm as Hr Hc.
    rewrite <- Hr in Hph. rewrite bool_decide_eq_false in Hph. by apply Hph.
  - intros m Hin Hne. apply list_elem_of_fmap. exists m. split; [done|].
    apply list_elem_of_filter. split; [|done].
    unfold isPlaceholder. destruct (role m) eqn:Hr; [done|].
    apply bool_decide_eq_false. intros Hc. apply Hne. by rewrite Hc.
  - rewrite length_fmap. apply length_filter.
Qed.

Lemma history_sent_witness :
  ∃ st1 rq,
    onSubmit_start (onChange initial (lit "When should I irrigate?")) = Some st1
    ∧ pending st1 = Some rq
    ∧ rq_message rq = lit "When should I irrigate?"
    ∧ rq_history rq = [].
Proof.
  destruct (onSubmit_start (onChange initial (lit "When should I irrigate?")))
    as [st1|] eqn:Hs; [|vm_compute in Hs; discriminate].
  destruct (pending st1) as [rq|] eqn:Hp;
    [|vm_compute in Hs; injection Hs as <-; discriminate Hp].
  destruct (history_sent _ _ _ Hs Hp) as (Hm & _ & _ & Hlen).
  exists st1, rq. split; [reflexivity|]. split; [exact Hp|].
  split; [exact Hm|].
  vm_compute in Hs. injection Hs as <-. by injection Hp as <-.
Defined.



(** X20. One call at a time: in a reachable state with a call in flight a
    submit is refused and changes nothing (the handle of the call in flight
    is not replaced); with no call in flight Stop changes nothing. *)
Theorem single_flight (st : State) :
  reachable st →
  (is_Some (pending st) →
   onSubmit_start st = None ∧ ∀ st', step st Submit st' → st' = st)
  ∧ (pending st = None → onStop st = st).
Proof.
  intros Hreach. pose proof (inflight_invariant st Hreach) as Hinv.
  split.
  - intros [rq Hp]. rewrite Hp in Hinv. destruct Hinv as [Hl _].
    assert (Hn : onSubmit_start st = None) by (apply onSubmit_start_None; auto).
    split; [exact Hn|]. intros st' Hstep.
    inversion Hstep; subst; [congruence|done].
  - intros Hp. rewrite Hp in Hinv. destruct Hinv as [_ Ha].
    unfold onStop. by rewrite Ha.
Qed.

Lemma single_flight_witness :
  onStop initial = initial
  ∧ ∃ st1,
      onSubmit_start (onChange initial (lit "When should I irrigate?")) = Some st1
      ∧ onSubmit_start (onChange st1 (lit "And how often?")) = None.
Proof.
  split.
  - apply (proj2 (single_flight initial reach_initial)). reflexivity.
  - destruct (onSubmit_start (onChange initial (lit "When should I irrigate?")))
      as [st1|] eqn:Hs; [|vm_compute in Hs; discriminate].
    exists st1. split; [reflexivity|].
    assert (Hreach : reachable (onChange st1 (lit "And how often?"))).
    { eapply reach_step; [|apply step_change].
      eapply reach_step; [|apply step_submit; exact Hs].
      eapply reach_step; [apply reach_initial|apply step_change]. }
    apply (proj1 (single_flight _ Hreach)).
    vm_compute in Hs. injection Hs as <-. by eexists.
Defined.

End SurfaceExtras.

(** ** The surface and the server together *)

Section EndToEnd.
Import JS.

(** X21. A message that the chat surface sends always passes the validation
    of the server: whatever the history and the world, the route does not
    answer it with 400. *)
Theorem surface_message_passes_validation
    (st st1 : ChatSurface.State) (rq : ChatSurface.ChatRequest)
    (w : Server.World) (h : Server.HistoryField)
    (r : Server.HttpResponse) (tr : list Server.event) :
  ChatSurface.onSubmit_start st = Some st1 →
  ChatSurface.pending st1 = Some rq →
  Server.handleChat w {| Server.message := Some (ChatSurface.rq_message rq);
                         Server.history := h |} = (Return r, tr) →
  Server.res_status r ≠ 400%N.
Proof.
  intros Hs Hp Hc.
  apply onSubmit_start_Some in Hs as (Hne & _ & ->). simpl in Hp.
  injection Hp as <-. simpl in Hc.
  rewrite chat_steps in Hc. simpl in Hc. rewrite trim_idemp in Hc.
  destruct (trim (ChatSurface.input st)) as [|c s]; [done|].
  cbv zeta in Hc.
  destruct (Server.retrieveFromVertexCorpus w (c :: s) _ []) as [[[|x cs]|e] tr1].
  - by injection Hc as <- _.
  - destruct (Server.generateWithVertex w (c :: s) _ _ tr1) as [[a|e] tr2];
      by injection Hc as <- _.
  - by injection Hc as <- _.
Qed.

Lemma surface_message_passes_validation_witness :
  ∃ st1 rq r tr,
    ChatSurface.onSubmit_start
      (ChatSurface.onChange ChatSurface.initial (lit "  When should I irrigate?  "))
    = Some st1
    ∧ ChatSurface.pending st1 = Some rq
    ∧ Server.handleChat
        (Scenario.worldOf
           (Server.FetchResponse (Scenario.okResponse (Scenario.payloadOf [])))
           (Server.FetchRejects NotAnError))
        {| Server.message := Some (ChatSurface.rq_message rq);
           Server.history := Server.NotAnArray |} = (Return r, tr)
    ∧ Server.res_status r ≠ 400%N.
Proof.
  destruct (ChatSurface.onSubmit_start
              (ChatSurface.onChange ChatSurface.initial
                 (lit "  When should I irrigate?  ")))
    as [st1|] eqn:Hs; [|vm_compute in Hs; discriminate].
  destruct (ChatSurface.pending st1) as [rq|] eqn:Hp;
    [|vm_compute in Hs; injection Hs as <-; discriminate Hp].
  set (w := Scenario.worldOf _ _).
  destruct (chat_responds w
              {| Server.message := Some (ChatSurface.rq_message rq);
                 Server.history := Server.NotAnArray |}) as (r & tr & Hc).
  exists st1, rq, r, tr. split; [reflexivity|]. split; [exact Hp|].
  split; [exact Hc|].
  exact (surface_message_passes_validation _ _ _ _ _ _ _ Hs Hp Hc).
Defined.

End EndToEnd.
